(** * aiocoap.plumbingrequest: the PlumbingRequest meeting point and
      run_driving_plumbing_request

    A shallow embedding of [src/aiocoap/plumbingrequest.py].  Every method of
    [PlumbingRequest] is a computation in a state-and-exception monad over the
    part of the Python heap the module touches: the [_event_callbacks] field,
    the logger, the asyncio tasks, and whatever state the callbacks keep for
    themselves.  One ghost list, [calls], records in order which event was
    pushed and which callback was invoked with what; the model writes it where
    the source makes the call, and no method reads it. *)

From Stdlib Require Import List Bool Arith Lia String.
Import ListNotations.

Set Implicit Arguments.

(** ** Values *)

(** A response code, and as much of [aiocoap.message.Message] as the module
    looks at: it only builds [Message(code=...)] and passes messages on. *)
Definition Code := nat.

Record Message := mkMessage { code : Code; content : option nat }.

(** [Message(code=c)] *)
Definition Message_of_code (c : Code) : Message :=
  {| code := c; content := None |}.

(** Exceptions by the classes the module tells apart.  A [RenderableError]
    carries what its [to_message()] does when called. *)
Inductive exc : Type :=
| TypeError
| AttributeError
| ValueError
| NotImplementedError
| RenderableError (r : rendering)
| CancelledError
| OtherException (n : nat)
| OtherBaseException (n : nat)
with rendering : Type :=
| Renders (m : Message)
| RendersNone
| RenderFails (e2 : exc).

(** [isinstance(e, error.RenderableError)] *)
Definition is_RenderableError (e : exc) : bool :=
  match e with RenderableError _ => true | _ => false end.

(** [isinstance(e, asyncio.CancelledError)] *)
Definition is_CancelledError (e : exc) : bool :=
  match e with CancelledError => true | _ => false end.

(** [isinstance(e, Exception)]: everything but the bare [BaseException]s,
    of which [CancelledError] is one (the source's comment says so). *)
Definition is_Exception (e : exc) : bool :=
  match e with
  | CancelledError | OtherBaseException _ => false
  | _ => true
  end.

(** [Event = namedtuple("Event", ("message", "exception", "is_last"))] *)
Record Event := mkEvent {
  message : option Message;
  exception : option exc;
  is_last : bool
}.

(** [self.Event(None, None, True)] *)
Definition tombstone : Event :=
  {| message := None; exception := None; is_last := true |}.

Definition is_tombstone (e : Event) : bool :=
  match message e, exception e with
  | None, None => is_last e
  | _, _ => false
  end.

(** ** Callables *)

(** A callable handed to [on_event] is known by its identity. *)
Definition event_cb := nat.

(** A callable handed to [on_interest_end]: some function of no argument, or
    the bound method [task.cancel] of the asyncio task number [t]. *)
Inductive end_cb : Type :=
| Plain (f : nat)
| TaskCancel (t : nat).

(** What sits in [_event_callbacks]: the callable given to [on_event], or the
    lambda [on_interest_end] builds around its argument. *)
Inductive observer : Type :=
| Direct (cb : event_cb)
| Lambda (callback : end_cb).

(** [callback is cb] for a callable [callback] a caller of [on_event] holds:
    the lambdas are objects of the point's own, identical to none of them. *)
Definition is_ (callback : event_cb) (cb : observer) : bool :=
  match cb with
  | Direct f => Nat.eqb callback f
  | Lambda _ => false
  end.

(** The three shapes of [self._event_callbacks]: a list of
    [(callback, is_interest)], [None] during event processing, [False] once
    the point has ended. *)
Inductive callbacks : Type :=
| Open (l : list (observer * bool))
| Dispatching
| Ended.

(** ** Logging and tasks *)

Inductive level : Type := INFO | WARNING | ERROR.

(** One constructor per format string of the module. *)
Inductive log_message : Type :=
| OnInterestEndAfterEnded (callback : end_cb)
| ResponseAfterEnded (event : Event)
| RenderableRaised (e : exc)
| RenderingFailed (e2 : exc)
| ExceptionWhileRendering (e : exc).

Definition log_record : Type := level * log_message.

(** An asyncio task: the name it was given, the coroutine that
    [wrapped()] awaits, and whether [cancel()] has been called on it. *)
Record Task := mkTask {
  task_name : option string;
  task_awaits : nat;
  cancel_requested : bool
}.

(** Ghost record of one call made by the point. *)
Inductive call : Type :=
| Pushed (event : Event)
| Delivered (cb : observer) (event : Event)
| Fired (callback : end_cb).

(** ** The heap and the monad *)

Record World (Env : Type) := mkWorld {
  _event_callbacks : callbacks;
  log : list log_record;
  tasks : list Task;
  calls : list call;
  env : Env
}.

Inductive result (A : Type) : Type :=
| Ok (a : A)
| Raise (e : exc).

Arguments Ok {A} a.
Arguments Raise {A} e.

Definition M (Env A : Type) : Type := World Env -> result A * World Env.

Definition ret {Env A} (a : A) : M Env A := fun w => (Ok a, w).

Definition raise {Env A} (e : exc) : M Env A := fun w => (Raise e, w).

Definition bind {Env A B} (m : M Env A) (k : A -> M Env B) : M Env B :=
  fun w =>
    match m w with
    | (Ok a, w') => k a w'
    | (Raise e, w') => (Raise e, w')
    end.

(** [try: m  except Exception as e: h e]; a bare [BaseException] passes. *)
Definition try_except_Exception {Env A} (m : M Env A) (h : exc -> M Env A)
  : M Env A :=
  fun w =>
    match m w with
    | (Ok a, w') => (Ok a, w')
    | (Raise e, w') => if is_Exception e then h e w' else (Raise e, w')
    end.

Declare Scope py_scope.
Delimit Scope py_scope with py.
Notation "x <- m ;; k" := (bind m (fun x => k))
  (at level 61, m at next level, right associativity) : py_scope.
Notation "m ;; k" := (bind m (fun _ => k))
  (at level 61, right associativity) : py_scope.
Open Scope py_scope.

(** What the module takes from outside: the behaviour of the callables it is
    handed, and two names it imports.  A callable runs on the whole heap, so
    it may call back into the point. *)
Class Host (Env : Type) := mkHost {
  (** [bool(cb(event))] for the callable with identity [cb] *)
  call_event : event_cb -> Event -> M Env bool;
  (** [callback()] for the plain callable [f] *)
  call_plain : nat -> M Env unit;
  (** [aiocoap.numbers.INTERNAL_SERVER_ERROR] *)
  INTERNAL_SERVER_ERROR : Code;
  (** [aiocoap.util.asyncio.py38args(name=name)], as the name that reaches
      [create_task] *)
  py38args : option string -> option string
}.

Section PlumbingRequest.

Context {Env : Type} {host : Host Env}.

#[local] Abbreviation World := (World Env).
#[local] Abbreviation M := (M Env).

(** *** Field and ghost updates *)

(** The heap with [self._event_callbacks = c]. *)
Definition with_callbacks (c : callbacks) (w : World) : World :=
  {| _event_callbacks := c; log := log w; tasks := tasks w;
     calls := calls w; env := env w |}.

Definition set_event_callbacks (c : callbacks) : M unit :=
  fun w => (Ok tt, with_callbacks c w).

Definition get_event_callbacks : M callbacks :=
  fun w => (Ok (_event_callbacks w), w).

Definition emit (l : level) (m : log_message) : M unit :=
  fun w => (Ok tt, {| _event_callbacks := _event_callbacks w;
                      log := log w ++ [(l, m)]; tasks := tasks w;
                      calls := calls w; env := env w |}).

Definition note (c : call) : M unit :=
  fun w => (Ok tt, {| _event_callbacks := _event_callbacks w; log := log w;
                      tasks := tasks w; calls := calls w ++ [c];
                      env := env w |}).

(** *** asyncio *)

Fixpoint request_cancel (t : nat) (ts : list Task) : list Task :=
  match ts, t with
  | [], _ => []
  | k :: rest, O =>
      {| task_name := task_name k; task_awaits := task_awaits k;
         cancel_requested := true |} :: rest
  | k :: rest, S t' => k :: request_cancel t' rest
  end.

(** [task.cancel()] *)
Definition Task_cancel (t : nat) : M unit :=
  fun w => (Ok tt, {| _event_callbacks := _event_callbacks w; log := log w;
                      tasks := request_cancel t (tasks w);
                      calls := calls w; env := env w |}).

(** [asyncio.create_task(coro, name=name)]: the new task's number *)
Definition create_task (awaits : nat) (name : option string) : M nat :=
  fun w => (Ok (List.length (tasks w)),
            {| _event_callbacks := _event_callbacks w; log := log w;
               tasks := tasks w ++ [{| task_name := name;
                                       task_awaits := awaits;
                                       cancel_requested := false |}];
               calls := calls w; env := env w |}).

(** *** Calling callables *)

(** [callback()] *)
Definition call_end_cb (callback : end_cb) : M unit :=
  note (Fired callback) ;;
  match callback with
  | Plain f => call_plain f
  | TaskCancel t => Task_cancel t
  end.

(** [cb(event)], by truth value.  The lambda of [on_interest_end] is
    [lambda e: ((callback(), False) if e.is_last else (None, True))[1]]. *)
Definition call_observer (cb : observer) (event : Event) : M bool :=
  note (Delivered cb event) ;;
  match cb with
  | Direct f => call_event f event
  | Lambda callback =>
      if is_last event then call_end_cb callback ;; ret false
      else ret true
  end.

(** Iterating [self._event_callbacks] (or a local that holds it):
    [None] and [False] are not iterable. *)
Definition iterate (c : callbacks) : M (list (observer * bool)) :=
  match c with
  | Open l => ret l
  | Dispatching | Ended => raise TypeError
  end.

(** *** PlumbingRequest *)

(** [any(is_interest for (cb, is_interest) in self._event_callbacks)] *)
Definition _any_interest : M bool :=
  c <- get_event_callbacks ;;
  l <- iterate c ;;
  ret (existsb snd l).

(** [poke] *)
Definition poke : M unit := raise NotImplementedError.

(** [[cb(tombstone) for (cb, _) in cbs]] *)
Fixpoint call_each (event : Event) (cbs : list (observer * bool)) : M unit :=
  match cbs with
  | [] => ret tt
  | (cb, _) :: rest => call_observer cb event ;; call_each event rest
  end.

(** [_end] *)
Definition _end : M unit :=
  cbs <- get_event_callbacks ;;
  set_event_callbacks Ended ;;
  l <- iterate cbs ;;
  call_each tombstone l.

(** [functools.partial(self._unregister_on_event, callback)] *)
Inductive handle : Type := partial_unregister (callback : event_cb).

(** [on_event]: [.append] exists on a list only. *)
Definition on_event (callback : event_cb) (is_interest : bool) : M handle :=
  c <- get_event_callbacks ;;
  match c with
  | Open l =>
      set_event_callbacks (Open (l ++ [(Direct callback, is_interest)])) ;;
      ret (partial_unregister callback)
  | Dispatching | Ended => raise AttributeError
  end.

(** [_unregister_on_event] *)
Definition _unregister_on_event (callback : event_cb) : M unit :=
  c <- get_event_callbacks ;;
  match c with
  | Ended => ret tt
  | _ =>
      l <- iterate c ;;
      set_event_callbacks
        (Open (filter (fun '(cb, i) => negb (is_ callback cb)) l)) ;;
      any <- _any_interest ;;
      if negb any then _end else ret tt
  end.

(** Calling a handle. *)
Definition call_handle (h : handle) : M unit :=
  match h with partial_unregister callback => _unregister_on_event callback end.

(** [on_interest_end] *)
Definition on_interest_end (callback : end_cb) : M unit :=
  c <- get_event_callbacks ;;
  match c with
  | Ended =>
      emit WARNING (OnInterestEndAfterEnded callback) ;;
      call_end_cb callback
  | _ =>
      any <- _any_interest ;;
      if any then
        l <- iterate c ;;
        set_event_callbacks (Open (l ++ [(Lambda callback, false)]))
      else call_end_cb callback
  end.

(** [[(cb, is_interest) for (cb, is_interest) in cbs if cb(event)]] *)
Fixpoint surviving_of (event : Event) (cbs : list (observer * bool))
  : M (list (observer * bool)) :=
  match cbs with
  | [] => ret []
  | (cb, is_interest) :: rest =>
      keep <- call_observer cb event ;;
      tl <- surviving_of event rest ;;
      ret (if keep then (cb, is_interest) :: tl else tl)
  end.

(** [_add_event] *)
Definition _add_event (event : Event) : M unit :=
  note (Pushed event) ;;
  c <- get_event_callbacks ;;
  match c with
  | Ended => emit WARNING (ResponseAfterEnded event)
  | _ =>
      let cbs := c in
      set_event_callbacks Dispatching ;;
      l <- iterate cbs ;;
      surviving <- surviving_of event l ;;
      set_event_callbacks (Open surviving) ;;
      any <- _any_interest ;;
      if negb any then _end else ret tt
  end.

(** [add_response] *)
Definition add_response (response : Message) (is_last : bool) : M unit :=
  _add_event {| message := Some response; exception := None;
                is_last := is_last |}.

(** [add_exception] *)
Definition add_exception (exception : exc) : M unit :=
  _add_event {| message := None; exception := Some exception;
                is_last := true |}.


(** *** run_driving_plumbing_request *)

(** How [await coroutine] ends. *)
Inductive outcome : Type :=
| Returns
| Throws (e : exc).

(** [e.to_message()] *)
Definition to_message (r : rendering) : M (option Message) :=
  match r with
  | Renders m => ret (Some m)
  | RendersNone => ret None
  | RenderFails e2 => raise e2
  end.

(** [wrapped()], from the point where [await coroutine] has ended with
    [awaited].  The [except] clauses are tried in the order of the source. *)
Definition wrapped (awaited : outcome) : M unit :=
  match awaited with
  | Returns => ret tt
  | Throws e =>
      match e with
      | RenderableError r =>
          emit INFO (RenderableRaised e) ;;
          msg <- try_except_Exception
                   (msg <- to_message r ;;
                    match msg with
                    | None => raise ValueError
                    | Some m => ret m
                    end)
                   (fun e2 =>
                      emit ERROR (RenderingFailed e2) ;;
                      ret (Message_of_code INTERNAL_SERVER_ERROR)) ;;
          add_response msg true
      | CancelledError => ret tt
      | _ =>
          if is_Exception e then
            add_response (Message_of_code INTERNAL_SERVER_ERROR) true ;;
            emit ERROR (ExceptionWhileRendering e)
          else raise e
      end
  end.

(** [run_driving_plumbing_request]: the task is created and dropped. *)
Definition run_driving_plumbing_request (coroutine : nat)
    (name : option string) : M unit :=
  create_task coroutine (py38args name) ;;
  ret tt.

(** *** Sequences of calls from outside *)

Inductive op : Type :=
| Register (callback : event_cb) (is_interest : bool)
| Unregister (callback : event_cb)
| InterestEnd (callback : end_cb)
| Push (response : Message) (is_last : bool)
| PushError (exception : exc).

Definition perform (o : op) : M unit :=
  match o with
  | Register callback is_interest => on_event callback is_interest ;; ret tt
  | Unregister callback => call_handle (partial_unregister callback)
  | InterestEnd callback => on_interest_end callback
  | Push response is_last => add_response response is_last
  | PushError exception => add_exception exception
  end.

(** Each call is made whatever the one before it did; its caller gets the
    exception, the heap stays as the call left it. *)
Fixpoint run (ops : list op) (w : World) : list (result unit) * World :=
  match ops with
  | [] => ([], w)
  | o :: rest =>
      let (r, w') := perform o w in
      let (rs, w'') := run rest w' in
      (r :: rs, w'')
  end.

End PlumbingRequest.

(** ** Reading the ghost record *)

Fixpoint deliveries (cs : list call) : list (observer * Event) :=
  match cs with
  | [] => []
  | Delivered cb e :: rest => (cb, e) :: deliveries rest
  | _ :: rest => deliveries rest
  end.

Fixpoint firings (cs : list call) : list end_cb :=
  match cs with
  | [] => []
  | Fired callback :: rest => callback :: firings rest
  | _ :: rest => firings rest
  end.

Fixpoint pushes (cs : list call) : list Event :=
  match cs with
  | [] => []
  | Pushed e :: rest => e :: pushes rest
  | _ :: rest => pushes rest
  end.

Definition end_cb_eqb (a b : end_cb) : bool :=
  match a, b with
  | Plain f, Plain g => Nat.eqb f g
  | TaskCancel t, TaskCancel u => Nat.eqb t u
  | _, _ => false
  end.

Definition observer_eqb (a b : observer) : bool :=
  match a, b with
  | Direct f, Direct g => Nat.eqb f g
  | Lambda c, Lambda d => end_cb_eqb c d
  | _, _ => false
  end.

(** How often [callback] was called. *)
Definition times_fired (callback : end_cb) (cs : list call) : nat :=
  List.length (filter (end_cb_eqb callback) (firings cs)).

(** The events [cb] was called with. *)
Definition received (cb : observer) (cs : list call) : list Event :=
  map snd (filter (fun d => observer_eqb cb (fst d)) (deliveries cs)).

(** The registrations of a point that has a list. *)
Definition registered {Env} (w : World Env) : list (observer * bool) :=
  match _event_callbacks w with
  | Open l => l
  | Dispatching | Ended => []
  end.

(** How many lambdas around [callback] wait in the list. *)
Definition times_pending (callback : end_cb) (l : list (observer * bool))
  : nat :=
  List.length (filter (fun r => observer_eqb (Lambda callback) (fst r)) l).

(** [PlumbingRequest(request, log)] on a heap with nothing else in it. *)
Definition fresh {Env} (e : Env) : World Env :=
  {| _event_callbacks := Open []; log := []; tasks := []; calls := [];
     env := e |}.

(** ** What is asked of the callables *)

(** [w'] differs from [w] in nothing the point owns. *)
Definition keeps_out {Env} (w w' : World Env) : Prop :=
  _event_callbacks w' = _event_callbacks w /\ calls w' = calls w.

(** Callables that keep to the contract of [on_event]'s docstring: they
    return, and produce no events and touch no registration on the way. *)
Definition well_behaved {Env} (host : Host Env) : Prop :=
  (forall f e w, exists b w', call_event f e w = (Ok b, w') /\ keeps_out w w')
  /\ (forall f w, exists w', call_plain f w = (Ok tt, w') /\ keeps_out w w').

(** Callables that may raise and may call any method of the point, but reach
    [_event_callbacks] in no other way: run on a point that is dispatching,
    they leave it dispatching and get nothing delivered. *)
Definition respects_dispatch {Env} (host : Host Env) : Prop :=
  (forall f e w, _event_callbacks w = Dispatching ->
     _event_callbacks (snd (call_event f e w)) = Dispatching
     /\ deliveries (calls (snd (call_event f e w))) = deliveries (calls w))
  /\ (forall f w, _event_callbacks w = Dispatching ->
     _event_callbacks (snd (call_plain f w)) = Dispatching
     /\ deliveries (calls (snd (call_plain f w))) = deliveries (calls w)).

(** ** Callables to run the point with *)

(** Callables that keep to themselves: [1] never asks for more, [2] asks for
    more until the final event, every other one always asks for more. *)
Definition polite_event (f : event_cb) (e : Event) : M unit bool :=
  match f with
  | 1 => ret false
  | 2 => ret (negb (is_last e))
  | _ => ret true
  end.

Definition polite : Host unit :=
  {| call_event := polite_event;
     call_plain := fun _ => ret tt;
     INTERNAL_SERVER_ERROR := 160;
     py38args := fun name => name |}.

Definition a_response : Message := {| code := 69; content := Some 0 |}.

(** Callables that break the contract.  [3] raises.  [10] is
    [lambda e: pr.add_response(m) or True]; [11] does the same inside
    [try: ... except Exception: pass].  [12] calls its own unregister handle
    and [13] does so inside [try: ... except Exception: pass]; [14] registers
    another observer.  The method they call finds its callables in [polite];
    on a dispatching point it calls none. *)
Definition rude_event (f : event_cb) (e : Event) : M unit bool :=
  match f with
  | 3 => raise (OtherException 0)
  | 10 => add_response (host := polite) a_response false ;; ret true
  | 11 =>
      try_except_Exception (add_response (host := polite) a_response false)
        (fun _ => ret tt) ;;
      ret true
  | 12 => call_handle (host := polite) (partial_unregister 12) ;; ret true
  | 13 =>
      try_except_Exception
        (call_handle (host := polite) (partial_unregister 13))
        (fun _ => ret tt) ;;
      ret true
  | 14 => on_event 0 true ;; ret true
  | _ => polite_event f e
  end.

Definition rude : Host unit :=
  {| call_event := rude_event;
     call_plain := fun _ => ret tt;
     INTERNAL_SERVER_ERROR := 160;
     py38args := fun name => name |}.

(** Points to run them on: open with the registrations [l] and nothing on
    record, ended, and in the middle of a pass. *)
Definition open_with (l : list (observer * bool)) : World unit :=
  {| _event_callbacks := Open l; log := []; tasks := []; calls := [];
     env := tt |}.

Definition an_ended_point : World unit :=
  {| _event_callbacks := Ended; log := []; tasks := []; calls := [];
     env := tt |}.

Definition a_dispatching_point : World unit :=
  {| _event_callbacks := Dispatching; log := []; tasks := [];
     calls := [Pushed {| message := Some a_response; exception := None;
                         is_last := false |}];
     env := tt |}.

(** An open point whose second observer raises, and the same point after a
    push. *)
Definition a_point_with_a_raiser : World unit :=
  open_with [(Direct 0, true); (Direct 3, true); (Direct 5, true)].

Definition a_wedged_point : World unit :=
  {| _event_callbacks := Dispatching; log := []; tasks := [];
     calls := [Pushed {| message := Some a_response; exception := None;
                         is_last := false |};
               Delivered (Direct 0)
                 {| message := Some a_response; exception := None;
                    is_last := false |};
               Delivered (Direct 3)
                 {| message := Some a_response; exception := None;
                    is_last := false |}];
     env := tt |}.

(** ** Vocabulary of the statements *)

(** The heap as the first callback of the pass for [event] finds it:
    the push is on record and the field is [None]. *)
Definition at_pass {Env} (event : Event) (w : World Env) : World Env :=
  {| _event_callbacks := Dispatching; log := log w; tasks := tasks w;
     calls := calls w ++ [Pushed event]; env := env w |}.

(** What one call of [cb] with [event] puts on record when the callables
    themselves keep out. *)
Definition calls_of (event : Event) (r : observer * bool) : list call :=
  Delivered (fst r) event ::
  match fst r with
  | Lambda callback => if is_last event then [Fired callback] else []
  | Direct _ => []
  end.

(** The deliveries of one pass over [l]. *)
Definition pass_over (event : Event) (l : list (observer * bool))
  : list (observer * Event) :=
  map (fun r => (fst r, event)) l.

(** [s] is [l] with some registrations dropped, the order kept. *)
Inductive thinned {A : Type} : list A -> list A -> Prop :=
| thinned_nil : thinned [] []
| thinned_drop x s l : thinned s l -> thinned s (x :: l)
| thinned_keep x s l : thinned s l -> thinned (x :: s) (x :: l).

Definition no_tombstone (ds : list (observer * Event)) : Prop :=
  Forall (fun d => is_tombstone (snd d) = false) ds.

(** The final events among [es]. *)
Definition finals (es : list Event) : list Event := filter is_last es.

(** What a push of [event] on an open point with registrations [l] comes
    to: every registration is called with it, the survivors [s] of the pass
    become the list, and the point ends, tombstone to each of [s], exactly
    when none of [s] counts as interest. *)
Definition pass_outcome {Env} {host : Host Env} (event : Event)
    (l : list (observer * bool)) (w : World Env)
    (out : result unit * World Env) : Prop :=
  exists s,
    fst (surviving_of event l (at_pass event w)) = Ok s
    /\ thinned s l
    /\ fst out = Ok tt
    /\ _event_callbacks (snd out) = (if existsb snd s then Open s else Ended)
    /\ deliveries (calls (snd out))
       = deliveries (calls w) ++ pass_over event l
         ++ (if existsb snd s then [] else pass_over tombstone s).

(** The call returns and has pushed [event], once, and nothing else. *)
Definition pushes_one {Env} (event : Event) (w : World Env)
    (out : result unit * World Env) : Prop :=
  fst out = Ok tt
  /\ pushes (calls (snd out)) = pushes (calls w) ++ [event].

(** The response the binder sends for a renderable error: what
    [to_message()] gives, or [Message(code=INTERNAL_SERVER_ERROR)]. *)
Definition response_for {Env} {host : Host Env} (r : rendering) : Message :=
  match r with
  | Renders m => m
  | RendersNone | RenderFails _ => Message_of_code INTERNAL_SERVER_ERROR
  end.

(** What [to_message()] raises, if it raises, is an [Exception]. *)
Definition fails_with_Exception (r : rendering) : Prop :=
  match r with
  | RenderFails e2 => is_Exception e2 = true
  | _ => True
  end.

(** [add_response(response, is_last=True)] as an event. *)
Definition final_response (response : Message) : Event :=
  {| message := Some response; exception := None; is_last := true |}.

(** What a caller sees of a push that came too late. *)
Definition dropped_with_warning {Env} (event : Event) (w : World Env)
    (out : result unit * World Env) : Prop :=
  fst out = Ok tt
  /\ _event_callbacks (snd out) = _event_callbacks w
  /\ deliveries (calls (snd out)) = deliveries (calls w)
  /\ firings (calls (snd out)) = firings (calls w)
  /\ log (snd out) = log w ++ [(WARNING, ResponseAfterEnded event)]
  /\ tasks (snd out) = tasks w
  /\ env (snd out) = env w.

Definition is_Raise {A} (r : result A) : Prop :=
  match r with Raise _ => True | Ok _ => False end.

(** [callback] is handed to [on_interest_end] nowhere in [ops]. *)
Definition not_handed (callback : end_cb) (ops : list op) : Prop :=
  Forall (fun o => match o with
                   | InterestEnd c => end_cb_eqb callback c = false
                   | _ => True
                   end) ops.

(** The two stages of a callback that [on_interest_end] put off: its lambda
    waits in the list of an open point that still has interest, having seen
    the events [seen], none final, and the callback has not been called; or
    the lambda has seen one final event after those, is gone from the list,
    and the callback has been called once. *)
Definition waiting {Env} (callback : end_cb) (w : World Env)
    (seen : list Event) : Prop :=
  times_pending callback (registered w) = 1
  /\ existsb snd (registered w) = true
  /\ times_fired callback (calls w) = 0
  /\ received (Lambda callback) (calls w) = seen.

Definition served {Env} (callback : end_cb) (w : World Env)
    (seen : list Event) : Prop :=
  times_pending callback (registered w) = 0
  /\ times_fired callback (calls w) = 1
  /\ exists final, is_last final = true
                   /\ received (Lambda callback) (calls w) = seen ++ [final].

Definition put_off_once {Env} (callback : end_cb) (w : World Env) : Prop :=
  _event_callbacks w <> Dispatching
  /\ exists seen, Forall (fun e => is_last e = false) seen
                  /\ (waiting callback w seen \/ served callback w seen).

(** ** Vocabulary of the further statements *)

(** How many registrations of [o] are in the list. *)
Definition times_registered (o : observer) (l : list (observer * bool))
  : nat :=
  List.length (filter (fun r => observer_eqb o (fst r)) l).

(** [on_event(callback, is_interest)] as a call, and the entry it appends. *)
Definition registration (r : event_cb * bool) : op :=
  Register (fst r) (snd r).

Definition entry (r : event_cb * bool) : observer * bool :=
  (Direct (fst r), snd r).

Definition is_ended {Env} (w : World Env) : bool :=
  match _event_callbacks w with
  | Ended => true
  | Open _ | Dispatching => false
  end.

(** What a call gives its caller on an ended point. *)
Definition result_when_ended (o : op) : result unit :=
  match o with
  | Register _ _ => Raise AttributeError
  | _ => Ok tt
  end.

(** What a call gives its caller when the callables keep out. *)
Definition expected_result {Env} (w : World Env) (o : op) : result unit :=
  if is_ended w then result_when_ended o else Ok tt.

(** The callbacks handed to [on_interest_end] in [ops], in order. *)
Fixpoint handed (ops : list op) : list end_cb :=
  match ops with
  | [] => []
  | InterestEnd callback :: rest => callback :: handed rest
  | _ :: rest => handed rest
  end.

(** No call of [ops] puts [o] into the list. *)
Definition leaves_alone (o : observer) (ops : list op) : Prop :=
  Forall (fun p => match p with
                   | Register cb _ => observer_eqb o (Direct cb) = false
                   | InterestEnd c => observer_eqb o (Lambda c) = false
                   | _ => True
                   end) ops.

(** No call of [ops] is the handle of [cb]. *)
Definition never_unregisters (cb : event_cb) (ops : list op) : Prop :=
  Forall (fun p => match p with
                   | Unregister c => Nat.eqb cb c = false
                   | _ => True
                   end) ops.

(** The callable [cb] answers every event with a true value. *)
Definition always_keeps {Env} (host : Host Env) (cb : event_cb) : Prop :=
  forall e w, fst (call_event cb e w) = Ok true.

(** Callables that may raise and may call any method of the point, but reach
    [_event_callbacks] in no other way: run on a point that has ended, they
    leave it ended and get nothing delivered. *)
Definition respects_end {Env} (host : Host Env) : Prop :=
  (forall f e w, _event_callbacks w = Ended ->
     _event_callbacks (snd (call_event f e w)) = Ended
     /\ deliveries (calls (snd (call_event f e w))) = deliveries (calls w))
  /\ (forall f w, _event_callbacks w = Ended ->
     _event_callbacks (snd (call_plain f w)) = Ended
     /\ deliveries (calls (snd (call_plain f w))) = deliveries (calls w)).

(** What a push of [event] comes to on an open point none of whose
    registrations [l] counts as interest: all of [l] are called with it, the
    survivors [s] of that pass, which are what the list comprehension of
    [_add_event] gives, with the tombstone, and the point has ended. *)
Definition ends_at_once {Env} {host : Host Env} (event : Event)
    (l : list (observer * bool)) (w : World Env)
    (out : result unit * World Env) : Prop :=
  exists s,
    fst (surviving_of event l (at_pass event w)) = Ok s
    /\ thinned s l
    /\ fst out = Ok tt
    /\ _event_callbacks (snd out) = Ended
    /\ deliveries (calls (snd out))
       = deliveries (calls w) ++ pass_over event l ++ pass_over tombstone s.

(** What a late push by the binder comes to: it returns, nothing is called,
    and the log ends with the warning of the point followed by [after]. *)
Definition dropped_by_the_point {Env} (event : Event)
    (after : list log_record) (w : World Env)
    (out : result unit * World Env) : Prop :=
  fst out = Ok tt
  /\ _event_callbacks (snd out) = Ended
  /\ deliveries (calls (snd out)) = deliveries (calls w)
  /\ firings (calls (snd out)) = firings (calls w)
  /\ exists before,
       log (snd out)
       = before ++ (WARNING, ResponseAfterEnded event) :: after.

(** The event a call pushes, if it is a push. *)
Definition pushed_by (o : op) : option Event :=
  match o with
  | Push response is_last =>
      Some {| message := Some response; exception := None;
              is_last := is_last |}
  | PushError exception =>
      Some {| message := None; exception := Some exception;
              is_last := true |}
  | _ => None
  end.

(** What the list comprehension of [_add_event] keeps of [l] when [event] is
    pushed on the heap [w]: the registrations whose callbacks answered with a
    true value. *)
Definition survivors {Env} {host : Host Env} (event : Event)
    (l : list (observer * bool)) (w : World Env) : list (observer * bool) :=
  match fst (surviving_of event l (at_pass event w)) with
  | Ok s => s
  | Raise _ => []
  end.

(** The list a call on an open point with the registrations [l] leaves
    behind, which is the list [_end] goes over if the call ends the point:
    [on_event] appends, a handle filters its callable out, [on_interest_end]
    appends its lambda if there is interest, a push keeps the survivors. *)
Definition left_by {Env} {host : Host Env} (o : op)
    (l : list (observer * bool)) (w : World Env) : list (observer * bool) :=
  match o with
  | Register callback is_interest => l ++ [(Direct callback, is_interest)]
  | Unregister callback => filter (fun '(cb, _) => negb (is_ callback cb)) l
  | InterestEnd callback =>
      if existsb snd l then l ++ [(Lambda callback, false)] else l
  | Push response is_last =>
      survivors {| message := Some response; exception := None;
                   is_last := is_last |} l w
  | PushError exception =>
      survivors {| message := None; exception := Some exception;
                   is_last := true |} l w
  end.

(** The deliveries of the pass a call makes over [l] before any tombstone:
    those of the pushed event, for a push. *)
Definition passed_by (o : op) (l : list (observer * bool))
  : list (observer * Event) :=
  match pushed_by o with
  | Some event => pass_over event l
  | None => []
  end.

(** The calls that look at [_any_interest] and call [_end]: a handle and a
    push. *)
Definition may_end (o : op) : bool :=
  match o with
  | Unregister _ | Push _ _ | PushError _ => true
  | Register _ _ | InterestEnd _ => false
  end.

(** [cb], registered once when the pushes so far were [before], on a point
    that is open: it is in the list once and has been called with every event
    pushed since, in order. *)
Definition followed_while_open {Env} (cb : event_cb) (before : list Event)
    (w : World Env) : Prop :=
  exists l,
    _event_callbacks w = Open l
    /\ times_registered (Direct cb) l = 1
    /\ pushes (calls w) = before ++ received (Direct cb) (calls w).

(** The same [cb] when the call just made has ended the point: it has been
    called with every event pushed since its registration, that of the ending
    call included, and then with the tombstone. *)
Definition followed_at_the_end {Env} (cb : event_cb) (before : list Event)
    (w : World Env) : Prop :=
  _event_callbacks w = Ended
  /\ exists seen,
       pushes (calls w) = before ++ seen
       /\ received (Direct cb) (calls w) = seen ++ [tombstone].

(** An open point with an interested observer and three passive ones, the
    second of which raises at whatever it is called with. *)
Definition a_point_with_a_passive_raiser : World unit :=
  open_with [(Direct 5, true); (Direct 0, false); (Direct 3, false);
             (Direct 1, false)].

(** * Properties *)

Unset Implicit Arguments.

Section Properties.

Context {Env : Type} {host : Host Env}.

Lemma deliveries_app (a b : list call) :
  deliveries (a ++ b) = deliveries a ++ deliveries b.
Proof.
  induction a as [|c a IH]; simpl; auto.
  destruct c; simpl; rewrite ?IH; reflexivity.
Qed.

Lemma firings_app (a b : list call) :
  firings (a ++ b) = firings a ++ firings b.
Proof.
  induction a as [|c a IH]; simpl; auto.
  destruct c; simpl; rewrite ?IH; reflexivity.
Qed.

Lemma pushes_app (a b : list call) :
  pushes (a ++ b) = pushes a ++ pushes b.
Proof.
  induction a as [|c a IH]; simpl; auto.
  destruct c; simpl; rewrite ?IH; reflexivity.
Qed.

(** ** A point that is dispatching refuses every method *)

Lemma on_event_dispatching (w : World Env) callback is_interest :
  _event_callbacks w = Dispatching ->
  on_event callback is_interest w = (Raise AttributeError, w).
Proof.
  intros H. unfold on_event, bind, get_event_callbacks. rewrite H. reflexivity.
Qed.

Lemma unregister_dispatching (w : World Env) callback :
  _event_callbacks w = Dispatching ->
  _unregister_on_event callback w = (Raise TypeError, w).
Proof.
  intros H. unfold _unregister_on_event, bind, get_event_callbacks.
  rewrite H. reflexivity.
Qed.

Lemma on_interest_end_dispatching (w : World Env) callback :
  _event_callbacks w = Dispatching ->
  on_interest_end callback w = (Raise TypeError, w).
Proof.
  intros H.
  unfold on_interest_end, _any_interest, bind, get_event_callbacks.
  cbv beta. rewrite !H. reflexivity.
Qed.

Lemma add_event_dispatching (w : World Env) event :
  _event_callbacks w = Dispatching ->
  _add_event event w = (Raise TypeError, at_pass event w).
Proof.
  intros H. unfold _add_event, bind, get_event_callbacks, note. simpl.
  rewrite H. reflexivity.
Qed.

Lemma add_event_open_eq (w : World Env) l event :
  _event_callbacks w = Open l ->
  _add_event event w
  = match surviving_of event l (at_pass event w) with
    | (Ok s, w1) =>
        if existsb snd s then (Ok tt, with_callbacks (Open s) w1)
        else _end (with_callbacks (Open s) w1)
    | (Raise x, w1) => (Raise x, w1)
    end.
Proof.
  intros H.
  unfold _add_event, _any_interest, bind, get_event_callbacks, note,
    set_event_callbacks, iterate, ret.
  simpl. rewrite H. simpl. unfold with_callbacks. simpl.
  change {| _event_callbacks := Dispatching; log := log w; tasks := tasks w;
            calls := calls w ++ [Pushed event]; env := env w |}
    with (at_pass event w).
  destruct (surviving_of event l (at_pass event w)) as [[s|x] w1];
    [|reflexivity].
  simpl. destruct (existsb snd s); reflexivity.
Qed.

Lemma perform_dispatching (w : World Env) (o : op) :
  _event_callbacks w = Dispatching ->
  is_Raise (fst (perform o w))
  /\ _event_callbacks (snd (perform o w)) = Dispatching
  /\ deliveries (calls (snd (perform o w))) = deliveries (calls w)
  /\ firings (calls (snd (perform o w))) = firings (calls w).
Proof.
  intros H. destruct o; simpl.
  - unfold bind. rewrite on_event_dispatching by assumption. simpl. auto.
  - rewrite unregister_dispatching by assumption. simpl. auto.
  - rewrite on_interest_end_dispatching by assumption. simpl. auto.
  - unfold add_response. rewrite add_event_dispatching by assumption.
    simpl. rewrite deliveries_app, firings_app. simpl.
    rewrite !app_nil_r. auto.
  - unfold add_exception. rewrite add_event_dispatching by assumption.
    simpl. rewrite deliveries_app, firings_app. simpl.
    rewrite !app_nil_r. auto.
Qed.

Lemma run_dispatching (ops : list op) (w : World Env) :
  _event_callbacks w = Dispatching ->
  Forall is_Raise (fst (run ops w))
  /\ List.length (fst (run ops w)) = List.length ops
  /\ _event_callbacks (snd (run ops w)) = Dispatching
  /\ deliveries (calls (snd (run ops w))) = deliveries (calls w)
  /\ firings (calls (snd (run ops w))) = firings (calls w).
Proof.
  revert w. induction ops as [|o ops IH]; intros w H; simpl.
  - auto.
  - destruct (perform_dispatching w o H) as (Hr & Hs & Hd & Hf).
    destruct (perform o w) as [r w1]. simpl in *.
    destruct (IH w1 Hs) as (IH1 & IH2 & IH3 & IH4 & IH5).
    destruct (run ops w1) as [rs w2]. simpl in *.
    repeat split; auto; congruence.
Qed.

(** ** A pass over callables that may raise or call back in *)

Lemma call_end_cb_dispatching (w : World Env) callback :
  respects_dispatch host ->
  _event_callbacks w = Dispatching ->
  _event_callbacks (snd (call_end_cb callback w)) = Dispatching
  /\ deliveries (calls (snd (call_end_cb callback w))) = deliveries (calls w).
Proof.
  intros [_ Hp] H. unfold call_end_cb, bind, note. simpl.
  set (w1 := {| _event_callbacks := _event_callbacks w; log := log w;
                tasks := tasks w; calls := calls w ++ [Fired callback];
                env := env w |}).
  assert (H1 : _event_callbacks w1 = Dispatching) by exact H.
  assert (D1 : deliveries (calls w1) = deliveries (calls w)).
  { unfold w1. simpl. rewrite deliveries_app. simpl. apply app_nil_r. }
  destruct callback as [f|t].
  - destruct (Hp f w1 H1) as [Ha Hb]. rewrite Ha, Hb. auto.
  - simpl. auto.
Qed.

Lemma call_observer_dispatching (w : World Env) cb event :
  respects_dispatch host ->
  _event_callbacks w = Dispatching ->
  _event_callbacks (snd (call_observer cb event w)) = Dispatching
  /\ deliveries (calls (snd (call_observer cb event w)))
     = deliveries (calls w) ++ [(cb, event)].
Proof.
  intros R H. unfold call_observer, bind, note. simpl.
  set (w1 := {| _event_callbacks := _event_callbacks w; log := log w;
                tasks := tasks w; calls := calls w ++ [Delivered cb event];
                env := env w |}).
  assert (H1 : _event_callbacks w1 = Dispatching) by exact H.
  assert (D1 : deliveries (calls w1) = deliveries (calls w) ++ [(cb, event)]).
  { unfold w1. simpl. rewrite deliveries_app. reflexivity. }
  destruct cb as [f|callback].
  - destruct R as [Re _]. destruct (Re f event w1 H1) as [Ha Hb].
    rewrite Ha, Hb. auto.
  - destruct (is_last event).
    + destruct (call_end_cb_dispatching w1 callback R H1) as [Ha Hb].
      unfold bind. destruct (call_end_cb callback w1) as [[[]|x] w2];
        simpl in *; rewrite Ha, Hb; auto.
    + simpl. auto.
Qed.

Lemma thinned_refl {A : Type} (l : list A) : thinned l l.
Proof. induction l; constructor; assumption. Qed.

Lemma thinned_nil_l {A : Type} (l : list A) : thinned [] l.
Proof. induction l; constructor; assumption. Qed.

Lemma surviving_of_cons event cb i rest (w : World Env) :
  surviving_of event ((cb, i) :: rest) w
  = match call_observer cb event w with
    | (Ok keep, w1) =>
        match surviving_of event rest w1 with
        | (Ok tl, w2) => (Ok (if keep then (cb, i) :: tl else tl), w2)
        | (Raise x, w2) => (Raise x, w2)
        end
    | (Raise x, w1) => (Raise x, w1)
    end.
Proof. reflexivity. Qed.

Lemma call_each_cons event cb i rest (w : World Env) :
  call_each event ((cb, i) :: rest) w
  = match call_observer cb event w with
    | (Ok _, w1) => call_each event rest w1
    | (Raise x, w1) => (Raise x, w1)
    end.
Proof. reflexivity. Qed.

Lemma surviving_of_dispatching event (l : list (observer * bool)) :
  respects_dispatch host ->
  forall w : World Env,
  _event_callbacks w = Dispatching ->
  exists k,
    k <= List.length l
    /\ _event_callbacks (snd (surviving_of event l w)) = Dispatching
    /\ deliveries (calls (snd (surviving_of event l w)))
       = deliveries (calls w) ++ pass_over event (firstn k l)
    /\ (forall s, fst (surviving_of event l w) = Ok s ->
        k = List.length l /\ thinned s l).
Proof.
  intros R. induction l as [|[cb i] rest IH]; intros w H.
  - exists 0. simpl. rewrite app_nil_r.
    split; [lia|]. split; [exact H|]. split; [reflexivity|].
    intros s Hs. inversion Hs. split; [reflexivity | constructor].
  - destruct (call_observer_dispatching w cb event R H) as [Ha Hb].
    rewrite surviving_of_cons.
    destruct (call_observer cb event w) as [[keep|x] w1]; simpl in Ha, Hb.
    + destruct (IH w1 Ha) as (k & Hk & Hc & Hd & He).
      destruct (surviving_of event rest w1) as [[tl|x] w2];
        simpl in Hc, Hd, He; exists (S k); simpl.
      * split; [lia|]. split; [exact Hc|].
        split; [rewrite Hd, Hb, <- app_assoc; reflexivity|].
        intros s Hs. destruct (He tl eq_refl) as [-> Ht].
        split; [reflexivity|].
        inversion Hs; subst. destruct keep; constructor; assumption.
      * split; [lia|]. split; [exact Hc|].
        split; [rewrite Hd, Hb, <- app_assoc; reflexivity|].
        intros s Hs. discriminate.
    + exists 1. simpl.
      split; [lia|]. split; [exact Ha|]. split; [exact Hb|].
      intros s Hs. discriminate.
Qed.

(** C5 (as amended): while the point is dispatching, [add_response] and
    [add_exception] raise [TypeError] to whoever calls them, call no observer
    and leave the field as it is; and in the pass itself every observer is
    called with the outer event at most once, in registration order, all of
    them when the pass comes to its end. *)
Theorem reentrant_push_is_rejected (w : World Env) :
  respects_dispatch host ->
  _event_callbacks w = Dispatching ->
  (forall response is_last,
     add_response response is_last w
     = (Raise TypeError,
        at_pass {| message := Some response; exception := None;
                   is_last := is_last |} w))
  /\ (forall exception,
     add_exception exception w
     = (Raise TypeError,
        at_pass {| message := None; exception := Some exception;
                   is_last := true |} w))
  /\ (forall event, deliveries (calls (at_pass event w)) = deliveries (calls w)
                    /\ firings (calls (at_pass event w)) = firings (calls w))
  /\ (forall event l, exists k,
        k <= List.length l
        /\ _event_callbacks (snd (surviving_of event l w)) = Dispatching
        /\ deliveries (calls (snd (surviving_of event l w)))
           = deliveries (calls w) ++ pass_over event (firstn k l)
        /\ (forall s, fst (surviving_of event l w) = Ok s ->
            k = List.length l /\ thinned s l)).
Proof.
  intros R H. repeat split.
  - intros. unfold add_response. apply add_event_dispatching. exact H.
  - intros. unfold add_exception. apply add_event_dispatching. exact H.
  - simpl. rewrite deliveries_app. simpl. apply app_nil_r.
  - simpl. rewrite firings_app. simpl. apply app_nil_r.
  - intros event l. apply surviving_of_dispatching; assumption.
Qed.

(** C6 (as amended): called while the point is dispatching, an unregister
    handle raises [TypeError] and changes nothing: no registration is removed,
    then or later. *)
Theorem unregister_during_dispatch_raises (w : World Env) callback :
  _event_callbacks w = Dispatching ->
  call_handle (partial_unregister callback) w = (Raise TypeError, w).
Proof.
  intros H. simpl. apply unregister_dispatching. exact H.
Qed.

Lemma on_event_ended (w : World Env) callback is_interest :
  _event_callbacks w = Ended ->
  on_event callback is_interest w = (Raise AttributeError, w).
Proof.
  intros H. unfold on_event, bind, get_event_callbacks. rewrite H. reflexivity.
Qed.

(** C9: on a point that has ended, [on_event] raises [AttributeError] and
    registers nothing. *)
Theorem on_event_after_end_raises (w : World Env) callback is_interest :
  _event_callbacks w = Ended ->
  on_event callback is_interest w = (Raise AttributeError, w).
Proof. apply on_event_ended. Qed.

Lemma add_event_ended (w : World Env) event :
  _event_callbacks w = Ended ->
  dropped_with_warning event w (_add_event event w).
Proof.
  intros H. unfold dropped_with_warning.
  unfold _add_event, bind, get_event_callbacks, note, emit. simpl.
  rewrite H. simpl. rewrite deliveries_app, firings_app. simpl.
  rewrite !app_nil_r. repeat split; auto.
Qed.

(** C7: on a point that has ended, [add_response] and [add_exception] return
    normally, call no callback, leave the field, the tasks and the callables'
    own state alone, and log one record, a warning. *)
Theorem late_push_is_dropped (w : World Env) :
  _event_callbacks w = Ended ->
  (forall response is_last,
     dropped_with_warning
       {| message := Some response; exception := None; is_last := is_last |}
       w (add_response response is_last w))
  /\ (forall exception,
     dropped_with_warning
       {| message := None; exception := Some exception; is_last := true |}
       w (add_exception exception w)).
Proof.
  intros H. split; intros; apply add_event_ended; exact H.
Qed.

(** C10: when a callback raises in the pass over the observers of an open
    point, the exception comes out of [_add_event] (so out of [add_response]
    or [add_exception]), the field stays [None], and from then on every
    push, registration and unregistration raises. *)
Theorem raising_observer_wedges_the_point (w : World Env) l event x w1 :
  respects_dispatch host ->
  _event_callbacks w = Open l ->
  surviving_of event l (at_pass event w) = (Raise x, w1) ->
  _add_event event w = (Raise x, w1)
  /\ (forall response is_last,
        event = {| message := Some response; exception := None;
                   is_last := is_last |} ->
        add_response response is_last w = (Raise x, w1))
  /\ (forall exception,
        event = {| message := None; exception := Some exception;
                   is_last := true |} ->
        add_exception exception w = (Raise x, w1))
  /\ _event_callbacks w1 = Dispatching
  /\ forall ops,
       Forall is_Raise (fst (run ops w1))
       /\ List.length (fst (run ops w1)) = List.length ops
       /\ _event_callbacks (snd (run ops w1)) = Dispatching.
Proof.
  intros R H P.
  assert (E : _add_event event w = (Raise x, w1)).
  { rewrite (add_event_open_eq w l event H), P. reflexivity. }
  assert (D : _event_callbacks w1 = Dispatching).
  { destruct (surviving_of_dispatching event l R (at_pass event w) eq_refl)
      as (k & _ & Hc & _).
    rewrite P in Hc. exact Hc. }
  split; [exact E|].
  split; [intros response is_last ->; exact E|].
  split; [intros exception ->; exact E|].
  split; [exact D|].
  intros ops. destruct (run_dispatching ops w1 D) as (A & B & C & _).
  auto.
Qed.

(** ** Passes over callables that keep out *)

Lemma call_end_cb_wb (w : World Env) callback :
  well_behaved host ->
  exists w', call_end_cb callback w = (Ok tt, w')
             /\ _event_callbacks w' = _event_callbacks w
             /\ calls w' = calls w ++ [Fired callback].
Proof.
  intros [_ Hp]. unfold call_end_cb, bind, note. simpl.
  destruct callback as [f|t].
  - match goal with |- context [call_plain f ?w1] =>
      destruct (Hp f w1) as (w' & -> & Hk1 & Hk2) end.
    exists w'. auto.
  - eexists. split; [reflexivity|]. simpl. auto.
Qed.

Lemma call_observer_wb (w : World Env) cb i event :
  well_behaved host ->
  exists b w', call_observer cb event w = (Ok b, w')
               /\ _event_callbacks w' = _event_callbacks w
               /\ calls w' = calls w ++ calls_of event (cb, i)
               /\ (forall callback, cb = Lambda callback ->
                   b = negb (is_last event)).
Proof.
  intros W. unfold call_observer, bind, note, calls_of. simpl.
  destruct cb as [f|callback].
  - destruct W as [He _].
    match goal with |- context [call_event f event ?w1] =>
      destruct (He f event w1) as (b & w' & -> & Hk1 & Hk2) end.
    exists b, w'. repeat split; auto. discriminate.
  - destruct (is_last event).
    + match goal with |- context [call_end_cb callback ?w1] =>
        destruct (call_end_cb_wb w1 callback W) as (w' & -> & Hk1 & Hk2) end.
      exists false, w'. simpl in *. repeat split; auto.
      rewrite Hk2, <- app_assoc. reflexivity.
    + eexists true, _. split; [reflexivity|]. simpl. repeat split; auto.
Qed.

Lemma call_each_wb event (l : list (observer * bool)) :
  well_behaved host ->
  forall w : World Env,
  exists w', call_each event l w = (Ok tt, w')
             /\ _event_callbacks w' = _event_callbacks w
             /\ calls w' = calls w ++ flat_map (calls_of event) l.
Proof.
  intros W. induction l as [|[cb i] rest IH]; intros w.
  - exists w. simpl. rewrite app_nil_r. auto.
  - rewrite call_each_cons.
    destruct (call_observer_wb w cb i event W) as (b & w1 & -> & E1 & C1 & _).
    destruct (IH w1) as (w2 & -> & E2 & C2).
    exists w2. split; [reflexivity|]. split; [congruence|].
    rewrite C2, C1, <- app_assoc. reflexivity.
Qed.

Lemma times_pending_cons callback r (l : list (observer * bool)) :
  times_pending callback (r :: l)
  = (if observer_eqb (Lambda callback) (fst r) then 1 else 0)
    + times_pending callback l.
Proof.
  unfold times_pending. cbn [filter].
  destruct (observer_eqb (Lambda callback) (fst r)); reflexivity.
Qed.

Lemma surviving_of_wb event (l : list (observer * bool)) :
  well_behaved host ->
  forall w : World Env,
  exists s w', surviving_of event l w = (Ok s, w')
               /\ _event_callbacks w' = _event_callbacks w
               /\ calls w' = calls w ++ flat_map (calls_of event) l
               /\ thinned s l
               /\ (forall callback,
                   times_pending callback s
                   = if is_last event then 0 else times_pending callback l).
Proof.
  intros W. induction l as [|[cb i] rest IH]; intros w.
  - exists [], w. simpl. rewrite app_nil_r.
    repeat split; auto; try constructor.
    intros. destruct (is_last event); reflexivity.
  - rewrite surviving_of_cons.
    destruct (call_observer_wb w cb i event W) as (b & w1 & -> & E1 & C1 & L1).
    destruct (IH w1) as (s & w2 & -> & E2 & C2 & T2 & P2).
    exists (if b then (cb, i) :: s else s), w2.
    split; [reflexivity|]. split; [congruence|].
    split; [rewrite C2, C1, <- app_assoc; reflexivity|].
    split; [destruct b; constructor; assumption|].
    intros callback. rewrite times_pending_cons. simpl fst.
    destruct cb as [f|c].
    + simpl. destruct b; [rewrite times_pending_cons|]; simpl; apply P2.
    + rewrite (L1 c eq_refl). specialize (P2 callback).
      destruct (is_last event); simpl.
      * exact P2.
      * rewrite times_pending_cons. simpl. rewrite P2. reflexivity.
Qed.

(** ** The methods on an open or ended point, callables keeping out *)

Lemma end_wb (w : World Env) l :
  well_behaved host ->
  _event_callbacks w = Open l ->
  exists w', _end w = (Ok tt, w')
             /\ _event_callbacks w' = Ended
             /\ calls w' = calls w ++ flat_map (calls_of tombstone) l.
Proof.
  intros W H. unfold _end, bind, get_event_callbacks, set_event_callbacks.
  rewrite H. simpl.
  match goal with |- context [call_each tombstone l ?w1] =>
    destruct (call_each_wb tombstone l W w1) as (w' & -> & E & C) end.
  exists w'. simpl in *. auto.
Qed.

Lemma add_event_open_wb (w : World Env) l event :
  well_behaved host ->
  _event_callbacks w = Open l ->
  exists s w',
    _add_event event w = (Ok tt, w')
    /\ fst (surviving_of event l (at_pass event w)) = Ok s
    /\ thinned s l
    /\ (forall callback,
          times_pending callback s
          = if is_last event then 0 else times_pending callback l)
    /\ _event_callbacks w' = (if existsb snd s then Open s else Ended)
    /\ calls w' = calls w ++ Pushed event :: flat_map (calls_of event) l
                  ++ (if existsb snd s then []
                      else flat_map (calls_of tombstone) s).
Proof.
  intros W H.
  destruct (surviving_of_wb event l W (at_pass event w))
    as (s & w1 & P & E1 & C1 & T1 & P1).
  rewrite (add_event_open_eq w l event H), P.
  exists s. simpl fst.
  destruct (existsb snd s) eqn:I.
  - eexists. split; [reflexivity|]. simpl.
    repeat split; auto.
    rewrite C1. simpl. rewrite app_nil_r, <- app_assoc. reflexivity.
  - destruct (end_wb (with_callbacks (Open s) w1) s W eq_refl)
      as (w' & -> & E & C).
    exists w'. simpl in *. repeat split; auto.
    rewrite C, C1. simpl. rewrite <- !app_assoc. reflexivity.
Qed.

Lemma unregister_open_wb (w : World Env) l callback :
  well_behaved host ->
  _event_callbacks w = Open l ->
  let l' := filter (fun '(cb, i) => negb (is_ callback cb)) l in
  exists w',
    _unregister_on_event callback w = (Ok tt, w')
    /\ _event_callbacks w' = (if existsb snd l' then Open l' else Ended)
    /\ calls w' = calls w ++ (if existsb snd l' then []
                              else flat_map (calls_of tombstone) l').
Proof.
  intros W H l'.
  unfold _unregister_on_event, bind at 1, get_event_callbacks. rewrite H.
  unfold bind at 1, iterate, ret at 1.
  unfold bind at 1, set_event_callbacks. simpl.
  unfold bind at 1, _any_interest, bind at 1. simpl.
  fold l'. destruct (existsb snd l') eqn:I; simpl.
  - eexists. split; [reflexivity|]. simpl. rewrite app_nil_r. auto.
  - match goal with |- context [_end ?w2] =>
      destruct (end_wb w2 l' W eq_refl) as (w' & -> & E & C) end.
    exists w'. simpl in *. auto.
Qed.

Lemma on_interest_end_open_wb (w : World Env) l callback :
  well_behaved host ->
  _event_callbacks w = Open l ->
  exists w',
    on_interest_end callback w = (Ok tt, w')
    /\ _event_callbacks w'
       = (if existsb snd l then Open (l ++ [(Lambda callback, false)])
          else Open l)
    /\ calls w' = calls w ++ (if existsb snd l then [] else [Fired callback]).
Proof.
  intros W H.
  unfold on_interest_end, bind at 1, get_event_callbacks. rewrite H.
  unfold bind at 1, _any_interest, bind at 1. simpl. rewrite H. simpl.
  destruct (existsb snd l) eqn:I.
  - unfold bind, iterate, ret, set_event_callbacks. simpl.
    eexists. split; [reflexivity|]. simpl. rewrite app_nil_r. auto.
  - destruct (call_end_cb_wb w callback W) as (w' & -> & E & C).
    exists w'. rewrite E, H. auto.
Qed.

Lemma on_interest_end_ended_wb (w : World Env) callback :
  well_behaved host ->
  _event_callbacks w = Ended ->
  exists w',
    on_interest_end callback w = (Ok tt, w')
    /\ _event_callbacks w' = Ended
    /\ calls w' = calls w ++ [Fired callback].
Proof.
  intros W H.
  unfold on_interest_end, bind at 1, get_event_callbacks. rewrite H.
  unfold bind, emit. simpl.
  match goal with |- context [call_end_cb callback ?w1] =>
    destruct (call_end_cb_wb w1 callback W) as (w' & -> & E & C) end.
  exists w'. simpl in *. rewrite E, H. auto.
Qed.

Lemma on_event_open (w : World Env) l callback is_interest :
  _event_callbacks w = Open l ->
  exists w',
    on_event callback is_interest w = (Ok (partial_unregister callback), w')
    /\ _event_callbacks w' = Open (l ++ [(Direct callback, is_interest)])
    /\ calls w' = calls w.
Proof.
  intros H. unfold on_event, bind, get_event_callbacks. rewrite H.
  unfold set_event_callbacks, ret. simpl.
  eexists. split; [reflexivity|]. auto.
Qed.

Lemma unregister_ended (w : World Env) callback :
  _event_callbacks w = Ended ->
  _unregister_on_event callback w = (Ok tt, w).
Proof.
  intros H. unfold _unregister_on_event, bind, get_event_callbacks.
  rewrite H. reflexivity.
Qed.

Lemma deliveries_calls_of event (l : list (observer * bool)) :
  deliveries (flat_map (calls_of event) l) = pass_over event l.
Proof.
  induction l as [|[cb i] rest IH]; [reflexivity|].
  cbn [flat_map pass_over map]. rewrite deliveries_app, IH.
  unfold calls_of, pass_over. simpl.
  destruct cb as [f|c]; simpl; [reflexivity|].
  destruct (is_last event); reflexivity.
Qed.

Lemma no_tombstone_pass_over event (l : list (observer * bool)) :
  is_tombstone event = false -> no_tombstone (pass_over event l).
Proof.
  intros H. unfold no_tombstone, pass_over.
  apply Forall_forall. intros d Hd. apply in_map_iff in Hd.
  destruct Hd as (r & <- & _). exact H.
Qed.

Lemma thinned_filter {A : Type} (p : A -> bool) (l : list A) :
  thinned (filter p l) l.
Proof.
  induction l as [|x l IH]; simpl; [constructor|].
  destruct (p x); constructor; assumption.
Qed.

Lemma add_event_pass_outcome (w : World Env) l event :
  well_behaved host ->
  _event_callbacks w = Open l ->
  pass_outcome event l w (_add_event event w).
Proof.
  intros W H.
  destruct (add_event_open_wb w l event W H)
    as (s & w' & -> & P & T & _ & E & C).
  exists s. simpl. repeat split; auto.
  rewrite C, deliveries_app. simpl. rewrite deliveries_app.
  rewrite deliveries_calls_of.
  destruct (existsb snd s); simpl; [reflexivity|].
  rewrite deliveries_calls_of. reflexivity.
Qed.

(** C3 (as amended): a push on an open point, final or not, ends the point
    and has the tombstone delivered exactly when no interest-counting observer
    survives its pass; an observer that counts as interest and answers a final
    event with a true value keeps the point open. *)
Theorem push_ends_point_only_without_interest (w : World Env) l :
  well_behaved host ->
  _event_callbacks w = Open l ->
  (forall response is_last,
     pass_outcome
       {| message := Some response; exception := None; is_last := is_last |}
       l w (add_response response is_last w))
  /\ (forall exception,
     pass_outcome
       {| message := None; exception := Some exception; is_last := true |}
       l w (add_exception exception w)).
Proof.
  intros W H. split; intros; apply add_event_pass_outcome; assumption.
Qed.

(** ** Sequences of calls *)

Lemma run_cons o ops (w : World Env) :
  run (o :: ops) w
  = (fst (perform o w) :: fst (run ops (snd (perform o w))),
     snd (run ops (snd (perform o w)))).
Proof.
  simpl. destruct (perform o w) as [r w1]. simpl.
  destruct (run ops w1) as [rs w2]. reflexivity.
Qed.

Lemma run_app ops1 ops2 (w : World Env) :
  snd (run (ops1 ++ ops2) w) = snd (run ops2 (snd (run ops1 w))).
Proof.
  revert w. induction ops1 as [|o ops1 IH]; intros w; [reflexivity|].
  rewrite <- app_comm_cons, !run_cons. simpl. apply IH.
Qed.

Lemma perform_ended_wb (w : World Env) o :
  well_behaved host ->
  _event_callbacks w = Ended ->
  _event_callbacks (snd (perform o w)) = Ended
  /\ deliveries (calls (snd (perform o w))) = deliveries (calls w)
  /\ firings (calls (snd (perform o w)))
     = firings (calls w)
       ++ match o with InterestEnd callback => [callback] | _ => [] end.
Proof.
  intros W H. destruct o as [cb i|cb|c|m il|x]; simpl.
  - unfold bind. rewrite on_event_ended by assumption.
    simpl. rewrite app_nil_r. auto.
  - rewrite unregister_ended by assumption. simpl. rewrite app_nil_r. auto.
  - destruct (on_interest_end_ended_wb w c W H) as (w' & -> & E & C).
    simpl. rewrite C, deliveries_app, firings_app. simpl.
    rewrite app_nil_r. auto.
  - unfold add_response.
    destruct (add_event_ended w
                {| message := Some m; exception := None; is_last := il |} H)
      as (_ & E & D & F & _).
    rewrite E, D, F, app_nil_r. auto.
  - unfold add_exception.
    destruct (add_event_ended w
                {| message := None; exception := Some x; is_last := true |} H)
      as (_ & E & D & F & _).
    rewrite E, D, F, app_nil_r. auto.
Qed.

Lemma run_ended_wb ops (w : World Env) :
  well_behaved host ->
  _event_callbacks w = Ended ->
  _event_callbacks (snd (run ops w)) = Ended
  /\ deliveries (calls (snd (run ops w))) = deliveries (calls w).
Proof.
  intros W. revert w. induction ops as [|o ops IH]; intros w H.
  - simpl. auto.
  - rewrite run_cons. simpl.
    destruct (perform_ended_wb w o W H) as (E & D & _).
    destruct (IH _ E) as (E' & D'). split; congruence.
Qed.

Lemma no_tombstone_app a b :
  no_tombstone a -> no_tombstone b -> no_tombstone (a ++ b).
Proof. unfold no_tombstone. intros. apply Forall_app. auto. Qed.

(** One call on an open point that has seen no tombstone: the point stays
    open and still has seen none, or it ends with one pass of tombstones over
    what the call left registered. *)
Lemma perform_open_wb (w : World Env) l o :
  well_behaved host ->
  _event_callbacks w = Open l ->
  no_tombstone (deliveries (calls w)) ->
  (exists l', _event_callbacks (snd (perform o w)) = Open l'
              /\ no_tombstone (deliveries (calls (snd (perform o w)))))
  \/ (_event_callbacks (snd (perform o w)) = Ended
      /\ exists s before,
           thinned s l
           /\ existsb snd s = false
           /\ no_tombstone before
           /\ deliveries (calls (snd (perform o w)))
              = before ++ pass_over tombstone s).
Proof.
  intros W H N.
  assert (P : forall event, is_tombstone event = false ->
    (exists l', _event_callbacks (snd (_add_event event w)) = Open l'
       /\ no_tombstone (deliveries (calls (snd (_add_event event w)))))
    \/ (_event_callbacks (snd (_add_event event w)) = Ended
        /\ exists s before,
             thinned s l /\ existsb snd s = false /\ no_tombstone before
             /\ deliveries (calls (snd (_add_event event w)))
                = before ++ pass_over tombstone s)).
  { intros event NT.
    destruct (add_event_pass_outcome w l event W H) as (s & _ & T & _ & E & D).
    destruct (existsb snd s) eqn:I.
    - left. exists s. split; [exact E|]. rewrite D, app_nil_r.
      apply no_tombstone_app; [exact N|].
      apply no_tombstone_pass_over; exact NT.
    - right. split; [exact E|].
      exists s, (deliveries (calls w) ++ pass_over event l).
      repeat split; auto.
      + apply no_tombstone_app; [exact N|].
        apply no_tombstone_pass_over; exact NT.
      + rewrite D, app_assoc. reflexivity. }
  destruct o as [cb i|cb|c|m il|x]; simpl.
  - left. destruct (on_event_open w l cb i H) as (w' & E' & E & C).
    unfold bind. rewrite E'. simpl. exists (l ++ [(Direct cb, i)]).
    rewrite C. auto.
  - destruct (unregister_open_wb w l cb W H) as (w' & -> & E & C).
    simpl.
    set (l' := filter (fun '(cb0, _) => negb (is_ cb cb0)) l) in *.
    destruct (existsb snd l') eqn:I.
    + left. exists l'. rewrite C, app_nil_r. auto.
    + right. split; [exact E|]. exists l', (deliveries (calls w)).
      repeat split; auto.
      * apply thinned_filter.
      * rewrite C, deliveries_app, deliveries_calls_of. reflexivity.
  - left. destruct (on_interest_end_open_wb w l c W H) as (w' & -> & E & C).
    simpl. rewrite E, C, deliveries_app.
    destruct (existsb snd l); simpl; rewrite app_nil_r; eauto.
  - apply P. reflexivity.
  - apply P. reflexivity.
Qed.

(** From an open point that has seen no tombstone, whatever is called. *)
Lemma run_open_wb ops :
  well_behaved host ->
  forall (w : World Env) l,
  _event_callbacks w = Open l ->
  no_tombstone (deliveries (calls w)) ->
  match _event_callbacks (snd (run ops w)) with
  | Open _ => no_tombstone (deliveries (calls (snd (run ops w))))
  | Dispatching => False
  | Ended =>
      exists ops1 o ops2 l1 s before,
        ops = ops1 ++ o :: ops2
        /\ _event_callbacks (snd (run ops1 w)) = Open l1
        /\ thinned s l1
        /\ existsb snd s = false
        /\ no_tombstone before
        /\ deliveries (calls (snd (run (ops1 ++ [o]) w)))
           = before ++ pass_over tombstone s
        /\ deliveries (calls (snd (run ops w)))
           = before ++ pass_over tombstone s
  end.
Proof.
  intros W. induction ops as [|o ops IH]; intros w l H N.
  - simpl. rewrite H. exact N.
  - rewrite run_cons. simpl snd.
    destruct (perform_open_wb w l o W H N)
      as [(l' & E & N') | (E & s & before & T & I & NB & D)].
    + specialize (IH _ l' E N').
      destruct (_event_callbacks (snd (run ops (snd (perform o w)))));
        auto.
      destruct IH as (ops1 & o1 & ops2 & l1 & s & before & -> & A & B & C
                      & F & G & K).
      exists (o :: ops1), o1, ops2, l1, s, before.
      rewrite <- !app_comm_cons, !run_cons. simpl snd. auto 10.
    + destruct (run_ended_wb ops _ W E) as (E' & D').
      rewrite E'.
      exists [], o, ops, l, s, before. simpl app.
      rewrite run_cons. simpl.
      repeat split; auto. congruence.
Qed.

(** ** Counting what an interest-end callback gets *)

Lemma times_fired_app callback a b :
  times_fired callback (a ++ b)
  = times_fired callback a + times_fired callback b.
Proof.
  unfold times_fired. rewrite firings_app, filter_app, length_app.
  reflexivity.
Qed.

Lemma received_app cb a b :
  received cb (a ++ b) = received cb a ++ received cb b.
Proof.
  unfold received. rewrite deliveries_app, filter_app, map_app. reflexivity.
Qed.

Lemma times_pending_app callback (a b : list (observer * bool)) :
  times_pending callback (a ++ b)
  = times_pending callback a + times_pending callback b.
Proof.
  unfold times_pending. rewrite filter_app, length_app. reflexivity.
Qed.

Lemma end_cb_eqb_refl c : end_cb_eqb c c = true.
Proof. destruct c; simpl; apply Nat.eqb_refl. Qed.

Lemma times_fired_calls_of callback event (l : list (observer * bool)) :
  times_fired callback (flat_map (calls_of event) l)
  = if is_last event then times_pending callback l else 0.
Proof.
  induction l as [|[cb i] rest IH].
  - destruct (is_last event); reflexivity.
  - cbn [flat_map]. rewrite times_fired_app, IH, times_pending_cons.
    unfold calls_of, times_fired. simpl.
    destruct cb as [f|c]; simpl.
    + destruct (is_last event); reflexivity.
    + destruct (is_last event); simpl; [|reflexivity].
      destruct (end_cb_eqb callback c); reflexivity.
Qed.

Lemma received_calls_of callback event (l : list (observer * bool)) :
  received (Lambda callback) (flat_map (calls_of event) l)
  = repeat event (times_pending callback l).
Proof.
  unfold received. rewrite deliveries_calls_of.
  induction l as [|[cb i] rest IH]; [reflexivity|].
  rewrite times_pending_cons. unfold pass_over in *.
  cbn [map filter fst snd].
  destruct (observer_eqb (Lambda callback) cb); cbn [map snd Nat.add repeat];
    rewrite IH; reflexivity.
Qed.

Lemma times_pending_filter callback f (l : list (observer * bool)) :
  times_pending callback (filter (fun '(cb, _) => negb (is_ f cb)) l)
  = times_pending callback l.
Proof.
  induction l as [|[cb i] rest IH]; [reflexivity|].
  cbn [filter]. destruct cb as [g|c]; simpl.
  - destruct (Nat.eqb f g); simpl; rewrite ?times_pending_cons; simpl;
      rewrite ?times_pending_cons; simpl; exact IH.
  - rewrite !times_pending_cons, IH. reflexivity.
Qed.

Lemma registered_open (w : World Env) l :
  _event_callbacks w = Open l -> registered w = l.
Proof. intros H. unfold registered. rewrite H. reflexivity. Qed.

Lemma registered_ended (w : World Env) :
  _event_callbacks w = Ended -> registered w = [].
Proof. intros H. unfold registered. rewrite H. reflexivity. Qed.

Lemma times_fired_deliveries_firings callback cs cs' :
  firings cs' = firings cs ->
  times_fired callback cs' = times_fired callback cs.
Proof. unfold times_fired. intros ->. reflexivity. Qed.

Lemma received_deliveries cb cs cs' :
  deliveries cs' = deliveries cs -> received cb cs' = received cb cs.
Proof. unfold received. intros ->. reflexivity. Qed.

(** What a push on an open point adds to the counts of [callback]. *)
Lemma add_event_counts (w : World Env) l event callback :
  well_behaved host ->
  _event_callbacks w = Open l ->
  exists s,
    _event_callbacks (snd (_add_event event w))
    = (if existsb snd s then Open s else Ended)
    /\ times_pending callback s
       = (if is_last event then 0 else times_pending callback l)
    /\ times_fired callback (calls (snd (_add_event event w)))
       = times_fired callback (calls w)
         + (if is_last event then times_pending callback l else 0)
         + (if existsb snd s then 0 else times_pending callback s)
    /\ received (Lambda callback) (calls (snd (_add_event event w)))
       = received (Lambda callback) (calls w)
         ++ repeat event (times_pending callback l)
         ++ (if existsb snd s then []
             else repeat tombstone (times_pending callback s)).
Proof.
  intros W H.
  destruct (add_event_open_wb w l event W H)
    as (s & w' & -> & _ & _ & P & E & C).
  exists s. simpl snd. split; [exact E|]. split; [apply P|].
  rewrite C.
  change (Pushed event :: flat_map (calls_of event) l
          ++ (if existsb snd s then [] else flat_map (calls_of tombstone) s))
    with ([Pushed event] ++ flat_map (calls_of event) l
          ++ (if existsb snd s then [] else flat_map (calls_of tombstone) s)).
  rewrite !times_fired_app, !received_app.
  rewrite times_fired_calls_of, received_calls_of.
  change (times_fired callback [Pushed event]) with 0.
  change (received (Lambda callback) [Pushed event]) with (@nil Event).
  destruct (existsb snd s).
  - change (times_fired callback []) with 0. simpl app. split; [lia|].
    reflexivity.
  - rewrite times_fired_calls_of, received_calls_of. simpl is_last.
    split; [lia | reflexivity].
Qed.

(** A callback with no lambda in the list, and not handed in again, is left
    alone by whatever is called. *)
Lemma perform_frame (w : World Env) o callback :
  well_behaved host ->
  _event_callbacks w <> Dispatching ->
  times_pending callback (registered w) = 0 ->
  not_handed callback [o] ->
  _event_callbacks (snd (perform o w)) <> Dispatching
  /\ times_pending callback (registered (snd (perform o w))) = 0
  /\ times_fired callback (calls (snd (perform o w)))
     = times_fired callback (calls w)
  /\ received (Lambda callback) (calls (snd (perform o w)))
     = received (Lambda callback) (calls w).
Proof.
  intros W ND P NH. inversion NH as [|? ? NHo _]; subst. clear NH.
  destruct (_event_callbacks w) as [l| |] eqn:H; [|congruence|].
  - rewrite (registered_open w l H) in P.
    assert (A : forall event,
      _event_callbacks (snd (_add_event event w)) <> Dispatching
      /\ times_pending callback (registered (snd (_add_event event w))) = 0
      /\ times_fired callback (calls (snd (_add_event event w)))
         = times_fired callback (calls w)
      /\ received (Lambda callback) (calls (snd (_add_event event w)))
         = received (Lambda callback) (calls w)).
    { intros event.
      destruct (add_event_counts w l event callback W H)
        as (s & E & Ps & F & R).
      assert (Ps0 : times_pending callback s = 0)
        by (rewrite Ps; destruct (is_last event); auto).
      rewrite F, R, P, Ps0. unfold registered. rewrite E.
      destruct (existsb snd s), (is_last event); simpl;
        rewrite ?app_nil_r; repeat split; auto; try discriminate; lia. }
    destruct o as [cb i|cb|c|m il|x]; simpl.
    + destruct (on_event_open w l cb i H) as (w' & E' & E & C).
      unfold bind. rewrite E'. simpl. unfold registered. rewrite E, C.
      rewrite times_pending_app, P. repeat split; auto. discriminate.
    + destruct (unregister_open_wb w l cb W H) as (w' & -> & E & C).
      simpl. unfold registered. rewrite E, C.
      rewrite times_fired_app, received_app.
      set (l' := filter (fun '(cb0, _) => negb (is_ cb cb0)) l) in *.
      assert (P' : times_pending callback l' = 0)
        by (unfold l'; rewrite times_pending_filter; exact P).
      destruct (existsb snd l').
      * rewrite app_nil_r. change (times_fired callback []) with 0.
        repeat split; auto; try discriminate; try lia.
      * rewrite times_fired_calls_of, received_calls_of, P'. simpl.
        rewrite app_nil_r. repeat split; auto; try discriminate; try lia.
    + destruct (on_interest_end_open_wb w l c W H) as (w' & -> & E & C).
      simpl. unfold registered. rewrite E, C.
      rewrite times_fired_app, received_app.
      destruct (existsb snd l).
      * rewrite times_pending_app, P, app_nil_r.
        unfold times_pending at 1. simpl. simpl in NHo. rewrite NHo. simpl.
        change (times_fired callback []) with 0.
        repeat split; auto; try discriminate; try lia.
      * unfold times_fired at 2. simpl. simpl in NHo. rewrite NHo. simpl.
        unfold received at 2. simpl. rewrite app_nil_r.
        repeat split; auto; try discriminate; try lia.
    + apply A.
    + apply A.
  - destruct (perform_ended_wb w o W H) as (E & D & F).
    rewrite (registered_ended _ E).
    rewrite (received_deliveries _ _ _ D).
    unfold times_fired. rewrite F, filter_app, length_app.
    repeat split; auto; try congruence.
    destruct o; simpl; try lia.
    simpl in NHo. rewrite NHo. simpl. lia.
Qed.

Lemma not_handed_cons callback o ops :
  not_handed callback (o :: ops) ->
  not_handed callback [o] /\ not_handed callback ops.
Proof.
  intros H. inversion H; subst. split; [repeat constructor|]; assumption.
Qed.

Lemma run_frame ops callback :
  well_behaved host ->
  not_handed callback ops ->
  forall w : World Env,
  _event_callbacks w <> Dispatching ->
  times_pending callback (registered w) = 0 ->
  _event_callbacks (snd (run ops w)) <> Dispatching
  /\ times_pending callback (registered (snd (run ops w))) = 0
  /\ times_fired callback (calls (snd (run ops w)))
     = times_fired callback (calls w)
  /\ received (Lambda callback) (calls (snd (run ops w)))
     = received (Lambda callback) (calls w).
Proof.
  intros W. induction ops as [|o ops IH]; intros NH w ND P.
  - simpl. auto.
  - apply not_handed_cons in NH. destruct NH as [NHo NH].
    rewrite run_cons. simpl snd.
    destruct (perform_frame w o callback W ND P NHo) as (A & B & C & D).
    destruct (IH NH _ A B) as (A' & B' & C' & D').
    repeat split; auto; congruence.
Qed.

Lemma existsb_snd_app (a b : list (observer * bool)) :
  existsb snd a = true -> existsb snd (a ++ b) = true.
Proof. intros H. rewrite existsb_app, H. reflexivity. Qed.

Lemma waiting_open (w : World Env) callback seen :
  waiting callback w seen -> exists l, _event_callbacks w = Open l.
Proof.
  intros (_ & I & _). unfold registered in I.
  destruct (_event_callbacks w) as [l| |]; try discriminate. eauto.
Qed.

(** One call, not handing [callback] in again, keeps it put off once. *)
Lemma perform_put_off (w : World Env) o callback :
  well_behaved host ->
  put_off_once callback w ->
  not_handed callback [o] ->
  put_off_once callback (snd (perform o w)).
Proof.
  intros W (ND & seen & NF & [Wt | (P & F & final & Lf & R)]) NH.
  2:{ destruct (perform_frame w o callback W ND P NH) as (A & B & C & D).
      split; [exact A|]. exists seen. split; [exact NF|]. right.
      split; [exact B|]. split; [congruence|].
      exists final. split; [exact Lf | congruence]. }
  destruct (waiting_open w callback seen Wt) as (l & H).
  destruct Wt as (P & I & F & R). rewrite (registered_open w l H) in P, I.
  pose proof (Forall_inv NH) as NHo. simpl in NHo. clear NH.
  assert (A : forall event,
            put_off_once callback (snd (_add_event event w))).
  { intros event.
    destruct (add_event_counts w l event callback W H)
      as (s & E & Ps & Fs & Rs).
    rewrite F, P in Fs. rewrite P, R in Rs. rewrite P in Ps.
    split; [rewrite E; destruct (existsb snd s); discriminate|].
    destruct (is_last event) eqn:L.
    - exists seen. split; [exact NF|]. right.
      unfold served, registered. rewrite E, Fs, Rs, Ps.
      split; [destruct (existsb snd s); auto|].
      split; [destruct (existsb snd s); lia|].
      exists event. split; [exact L|].
      destruct (existsb snd s); simpl; rewrite ?app_nil_r; reflexivity.
    - exists (seen ++ [event]).
      split; [apply Forall_app; split; [exact NF | repeat constructor; exact L]|].
      unfold waiting, served, registered. rewrite E, Fs, Rs, Ps.
      destruct (existsb snd s) eqn:Is.
      + left. simpl. rewrite ?app_nil_r. repeat split; auto.
      + right. simpl. repeat split; auto.
        exists tombstone. split; [reflexivity|].
        rewrite <- app_assoc. reflexivity. }
  destruct o as [cb i|cb|c|m il|x]; simpl; [| | |apply A|apply A].
  - destruct (on_event_open w l cb i H) as (w' & E' & E & C).
    unfold bind. rewrite E'. simpl.
    split; [rewrite E; discriminate|]. exists seen. split; [exact NF|].
    left. unfold waiting, registered. rewrite E, C, times_pending_app, P.
    repeat split; auto. apply existsb_snd_app; exact I.
  - destruct (unregister_open_wb w l cb W H) as (w' & -> & E & C).
    simpl. set (l' := filter (fun '(cb0, _) => negb (is_ cb cb0)) l) in *.
    assert (P' : times_pending callback l' = 1)
      by (unfold l'; rewrite times_pending_filter; exact P).
    split; [rewrite E; destruct (existsb snd l'); discriminate|].
    exists seen. split; [exact NF|].
    unfold waiting, served, registered. rewrite E, C.
    rewrite times_fired_app, received_app, F, R.
    destruct (existsb snd l') eqn:I'.
    + left. rewrite app_nil_r. repeat split; auto.
    + right. rewrite times_fired_calls_of, received_calls_of, P'. simpl.
      repeat split; auto. exists tombstone. auto.
  - destruct (on_interest_end_open_wb w l c W H) as (w' & -> & E & C).
    simpl. rewrite I in E, C. rewrite app_nil_r in C.
    split; [rewrite E; discriminate|]. exists seen. split; [exact NF|].
    left. unfold waiting, registered. rewrite E, C, times_pending_app, P.
    unfold times_pending at 1. simpl. simpl in NHo. rewrite NHo. simpl.
    repeat split; auto. apply existsb_snd_app; exact I.
Qed.

Lemma run_put_off ops callback :
  well_behaved host ->
  not_handed callback ops ->
  forall w : World Env,
  put_off_once callback w ->
  put_off_once callback (snd (run ops w)).
Proof.
  intros W. induction ops as [|o ops IH]; intros NH w J; [exact J|].
  apply not_handed_cons in NH. destruct NH as [NHo NH].
  rewrite run_cons. simpl snd. apply (IH NH).
  apply perform_put_off; assumption.
Qed.

Lemma not_handed_app callback ops1 ops2 :
  not_handed callback (ops1 ++ ops2) ->
  not_handed callback ops1 /\ not_handed callback ops2.
Proof. unfold not_handed. apply Forall_app. Qed.

(** C4 (as amended): with callables that return and keep out of the point,
    a callback handed to [on_interest_end] once, at any moment of any
    sequence of calls, is called at most once: at once when no registration
    counts as interest then (the ended point included), and otherwise by its
    lambda at the first final event the lambda is called with, which has
    happened at the latest when the point has ended, so that on an ended
    point it has been called exactly once; it is never called a second
    time. *)
Theorem interest_end_fires_exactly_once (e0 : Env) ops1 callback ops2 :
  well_behaved host ->
  not_handed callback (ops1 ++ ops2) ->
  let w0 := snd (run ops1 (fresh e0)) in
  let w1 := snd (perform (InterestEnd callback) w0) in
  let w := snd (run ops2 w1) in
  (existsb snd (registered w0) = false ->
     times_fired callback (calls w1) = 1
     /\ times_fired callback (calls w) = 1
     /\ received (Lambda callback) (calls w) = [])
  /\ (existsb snd (registered w0) = true ->
     times_fired callback (calls w1) = 0
     /\ put_off_once callback w)
  /\ times_fired callback (calls w) <= 1
  /\ (_event_callbacks w = Ended -> times_fired callback (calls w) = 1).
Proof.
  intros W NH w0 w1 w.
  apply not_handed_app in NH. destruct NH as [NH1 NH2].
  destruct (run_frame ops1 callback W NH1 (fresh e0)) as (ND0 & P0 & F0 & R0);
    [discriminate | reflexivity |].
  fold w0 in ND0, P0, F0, R0. simpl in F0, R0.
  change (times_fired callback []) with 0 in F0.
  change (received (Lambda callback) []) with (@nil Event) in R0.
  assert (Imm : existsb snd (registered w0) = false ->
     times_fired callback (calls w1) = 1
     /\ times_fired callback (calls w) = 1
     /\ received (Lambda callback) (calls w) = []).
  { intros I.
    assert (K : _event_callbacks w1 <> Dispatching
                /\ times_pending callback (registered w1) = 0
                /\ times_fired callback (calls w1) = 1
                /\ received (Lambda callback) (calls w1) = []).
    { unfold w1. simpl perform.
      destruct (_event_callbacks w0) as [l| |] eqn:H; [|congruence|].
      - rewrite (registered_open w0 l H) in I, P0.
        destruct (on_interest_end_open_wb w0 l callback W H)
          as (w' & -> & E & C).
        simpl snd. rewrite I in E, C. unfold registered. rewrite E, C.
        rewrite times_fired_app, received_app, F0, R0.
        unfold times_fired, received. simpl.
        rewrite end_cb_eqb_refl. simpl.
        repeat split; auto; discriminate.
      - destruct (on_interest_end_ended_wb w0 callback W H)
          as (w' & -> & E & C).
        simpl snd. unfold registered. rewrite E, C.
        rewrite times_fired_app, received_app, F0, R0.
        unfold times_fired, received. simpl.
        rewrite end_cb_eqb_refl. simpl.
        repeat split; auto; discriminate. }
    destruct K as (ND1 & P1 & F1 & R1).
    destruct (run_frame ops2 callback W NH2 w1 ND1 P1) as (_ & _ & F & R).
    fold w in F, R. repeat split; congruence. }
  assert (Def : existsb snd (registered w0) = true ->
     times_fired callback (calls w1) = 0 /\ put_off_once callback w).
  { intros I.
    destruct (_event_callbacks w0) as [l| |] eqn:H;
      [|congruence|rewrite (registered_ended w0 H) in I; discriminate].
    rewrite (registered_open w0 l H) in I, P0.
    assert (E1 : exists w', on_interest_end callback w0 = (Ok tt, w')
      /\ _event_callbacks w' = Open (l ++ [(Lambda callback, false)])
      /\ calls w' = calls w0).
    { destruct (on_interest_end_open_wb w0 l callback W H)
        as (w' & Hw & E & C).
      rewrite I in E, C. rewrite app_nil_r in C. eauto. }
    destruct E1 as (w' & Hw & E & C).
    assert (Ew : w1 = w') by (unfold w1; simpl perform; rewrite Hw; reflexivity).
    split; [rewrite Ew, C; exact F0|].
    unfold w. apply (run_put_off ops2 callback W NH2). rewrite Ew.
    split; [rewrite E; discriminate|]. exists []. split; [constructor|].
    left. unfold waiting, registered. rewrite E, C, times_pending_app, P0.
    unfold times_pending at 1. simpl. rewrite end_cb_eqb_refl. simpl.
    repeat split; auto. apply existsb_snd_app; exact I. }
  split; [exact Imm|]. split; [exact Def|].
  destruct (existsb snd (registered w0)) eqn:I.
  - destruct (Def eq_refl) as (_ & _ & seen & _ & [Wt | Sv]).
    + destruct Wt as (_ & Iw & Fw & _). split; [lia|].
      intros HE. rewrite (registered_ended w HE) in Iw. discriminate.
    + destruct Sv as (_ & Fw & _). split; [lia | auto].
  - destruct (Imm eq_refl) as (_ & Fw & _). split; [lia | auto].
Qed.

(** ** The binder *)

Lemma pushes_calls_of event (l : list (observer * bool)) :
  pushes (flat_map (calls_of event) l) = [].
Proof.
  induction l as [|[cb i] rest IH]; [reflexivity|].
  cbn [flat_map]. rewrite pushes_app, IH. unfold calls_of. simpl.
  destruct cb as [f|c]; simpl; [reflexivity|].
  destruct (is_last event); reflexivity.
Qed.

(** A push on a point that is not dispatching returns and is the only push. *)
Lemma add_event_pushes_one (w : World Env) event :
  well_behaved host ->
  _event_callbacks w <> Dispatching ->
  pushes_one event w (_add_event event w).
Proof.
  intros W ND. unfold pushes_one.
  destruct (_event_callbacks w) as [l| |] eqn:H; [|congruence|].
  - destruct (add_event_open_wb w l event W H)
      as (s & w' & Hw & _ & _ & _ & _ & C).
    rewrite Hw. simpl. rewrite C.
    change (Pushed event :: flat_map (calls_of event) l
            ++ (if existsb snd s then []
                else flat_map (calls_of tombstone) s))
      with ([Pushed event] ++ flat_map (calls_of event) l
            ++ (if existsb snd s then []
                else flat_map (calls_of tombstone) s)).
    rewrite !pushes_app, pushes_calls_of.
    assert (Z : pushes (if existsb snd s then []
                        else flat_map (calls_of tombstone) s) = []).
    { destruct (existsb snd s); [reflexivity | apply pushes_calls_of]. }
    rewrite Z. simpl. auto.
  - unfold _add_event, bind, get_event_callbacks, note, emit. simpl.
    rewrite H. simpl. rewrite pushes_app. auto.
Qed.

(** What [wrapped] does with a renderable error: it logs, and calls
    [add_response] once, with [is_last=True]. *)
Lemma wrapped_renderable_eq (w : World Env) r :
  fails_with_Exception r ->
  exists records,
    wrapped (Throws (RenderableError r)) w
    = add_response (response_for r) true
        {| _event_callbacks := _event_callbacks w;
           log := log w ++ (INFO, RenderableRaised (RenderableError r))
                           :: records;
           tasks := tasks w; calls := calls w; env := env w |}.
Proof.
  intros Hr. destruct r as [m| |e2]; simpl in Hr.
  - exists []. reflexivity.
  - exists [(ERROR, RenderingFailed ValueError)].
    unfold wrapped, bind, try_except_Exception, emit. simpl.
    rewrite <- app_assoc. reflexivity.
  - exists [(ERROR, RenderingFailed e2)].
    unfold wrapped, bind, try_except_Exception, emit. simpl.
    rewrite Hr. simpl. rewrite <- app_assoc. reflexivity.
Qed.

Lemma wrapped_exception_eq (w : World Env) e :
  is_Exception e = true ->
  is_RenderableError e = false ->
  wrapped (Throws e) w
  = (add_response (Message_of_code INTERNAL_SERVER_ERROR) true ;;
     emit ERROR (ExceptionWhileRendering e)) w.
Proof.
  intros HE HR. destruct e; simpl in *; try discriminate; reflexivity.
Qed.

(** C8 (as amended): on a point that is not in the middle of a pass, with
    callables that return and keep out of the point: for a renderable error
    [wrapped] pushes one event, final, carrying what [to_message()] gave, or
    [Message(code=INTERNAL_SERVER_ERROR)] when that gave [None] or raised an
    [Exception]; for any other [Exception] it pushes one final
    [Message(code=INTERNAL_SERVER_ERROR)] and then logs an error; for a
    [CancelledError], and when the coroutine returns, it does nothing at
    all. *)
Theorem wrapped_pushes_by_outcome (w : World Env) :
  well_behaved host ->
  _event_callbacks w <> Dispatching ->
  (forall r, fails_with_Exception r ->
     pushes_one (final_response (response_for r)) w
       (wrapped (Throws (RenderableError r)) w))
  /\ (forall e, is_Exception e = true -> is_RenderableError e = false ->
     pushes_one
       (final_response (Message_of_code INTERNAL_SERVER_ERROR)) w
       (wrapped (Throws e) w)
     /\ exists records,
          log (snd (wrapped (Throws e) w))
          = records ++ [(ERROR, ExceptionWhileRendering e)])
  /\ wrapped (Throws CancelledError) w = (Ok tt, w)
  /\ wrapped Returns w = (Ok tt, w).
Proof.
  intros W ND. split; [|split; [|split; reflexivity]].
  - intros r Hr. destruct (wrapped_renderable_eq w r Hr) as (records & ->).
    unfold add_response.
    match goal with |- pushes_one ?ev _ (_add_event _ ?w1) =>
      destruct (add_event_pushes_one w1 ev W ND) as [A B] end.
    split; [exact A | exact B].
  - intros e HE HR. rewrite (wrapped_exception_eq w e HE HR).
    unfold add_response, bind.
    destruct (add_event_pushes_one w
                (final_response (Message_of_code INTERNAL_SERVER_ERROR))
                W ND) as [A B].
    unfold final_response in *.
    destruct (_add_event _ w) as [[[]|x] w1]; simpl in A; [|discriminate].
    simpl in B. unfold pushes_one. simpl.
    split; [split; [reflexivity | exact B]|].
    exists (log w1). reflexivity.
Qed.

(** [run_driving_plumbing_request] creates the task and calls no method of
    the point: nothing is registered for the end of interest. *)
Lemma binder_registers_nothing (w : World Env) coroutine name :
  run_driving_plumbing_request coroutine name w
  = (Ok tt,
     {| _event_callbacks := _event_callbacks w; log := log w;
        tasks := tasks w ++ [{| task_name := py38args name;
                                task_awaits := coroutine;
                                cancel_requested := false |}];
        calls := calls w; env := env w |}).
Proof. reflexivity. Qed.

End Properties.

(** ** The callables of the examples *)

Lemma polite_well_behaved : well_behaved polite.
Proof.
  split.
  - intros f e w. simpl. unfold polite_event.
    destruct f as [|[|[|f]]]; eexists; eexists;
      (split; [reflexivity | split; reflexivity]).
  - intros f w. exists w. simpl. repeat split.
Qed.

Lemma rude_respects_dispatch : respects_dispatch rude.
Proof.
  split.
  - intros f e w H. simpl. unfold rude_event.
    assert (P : _event_callbacks (snd (polite_event f e w)) = Dispatching
                /\ deliveries (calls (snd (polite_event f e w)))
                   = deliveries (calls w)).
    { unfold polite_event. destruct f as [|[|[|f]]]; simpl; auto. }
    destruct f as [|[|[|[|[|[|[|[|[|[|[|[|[|[|[|f]]]]]]]]]]]]]]];
      try exact P.
    + unfold bind, add_response.
      rewrite (add_event_dispatching (host := polite)) by exact H.
      simpl. rewrite deliveries_app. simpl. rewrite app_nil_r. auto.
    + unfold bind, try_except_Exception, add_response.
      rewrite (add_event_dispatching (host := polite)) by exact H.
      simpl. rewrite deliveries_app. simpl. rewrite app_nil_r. auto.
    + unfold bind, call_handle.
      rewrite (unregister_dispatching (host := polite)) by exact H.
      simpl. auto.
    + unfold bind, try_except_Exception, call_handle.
      rewrite (unregister_dispatching (host := polite)) by exact H.
      simpl. auto.
    + unfold bind.
      rewrite on_event_dispatching by exact H.
      simpl. auto.
  - intros f w H. simpl. auto.
Qed.

(** ** The statements at work *)

(** C1, as stated, fails.  A passive observer that keeps asking for more is
    called with the final response and then with the tombstone: two final
    events, the second after the first.  And when the last interested
    observer leaves by its handle, neither it nor the observer that left
    before it is ever called with a final event. *)
Lemma an_observer_gets_two_final_events_or_none :
  finals
    (received (Direct 0)
       (calls (snd (run (host := polite)
                      [Register 2 true; Register 0 false;
                       Push a_response true]
                      (fresh tt)))))
  = [final_response a_response; tombstone]
  /\ (let w := snd (run (host := polite)
                      [Register 0 true; Register 5 true; Unregister 0;
                       Unregister 5] (fresh tt)) in
      _event_callbacks w = Ended
      /\ finals (received (Direct 0) (calls w)) = []
      /\ finals (received (Direct 5) (calls w)) = []).
Proof. repeat split. Qed.

Lemma push_ends_point_only_without_interest_witness :
  well_behaved polite
  /\ _event_callbacks (open_with [(Direct 0, true)]) = Open [(Direct 0, true)]
  /\ pass_outcome (host := polite) (final_response a_response)
       [(Direct 0, true)] (open_with [(Direct 0, true)])
       (add_response (host := polite) a_response true
          (open_with [(Direct 0, true)])).
Proof.
  split; [exact polite_well_behaved|]. split; [reflexivity|].
  exact (proj1 (push_ends_point_only_without_interest (host := polite)
                  (open_with [(Direct 0, true)]) [(Direct 0, true)]
                  polite_well_behaved eq_refl) a_response true).
Defined.

(** C3, as stated, fails: the only observer counts as interest and answers
    the final response with a true value; the point stays open with it
    registered, and no tombstone is delivered. *)
Lemma final_push_leaves_point_open :
  let w := snd (add_response (host := polite) a_response true
                  (open_with [(Direct 0, true)])) in
  _event_callbacks w = Open [(Direct 0, true)]
  /\ _event_callbacks w <> Ended
  /\ deliveries (calls w) = [(Direct 0, final_response a_response)].
Proof. repeat split. discriminate. Qed.

Lemma interest_end_fires_exactly_once_witness :
  well_behaved polite
  /\ not_handed (Plain 7) ([Register 0 true] ++ [Unregister 0])
  /\ times_fired (Plain 7)
       (calls (snd (run (host := polite) [Unregister 0]
                      (snd (perform (host := polite) (InterestEnd (Plain 7))
                              (snd (run (host := polite) [Register 0 true]
                                      (fresh tt)))))))) = 1.
Proof.
  assert (N : not_handed (Plain 7) ([Register 0 true] ++ [Unregister 0]))
    by (repeat constructor).
  split; [exact polite_well_behaved|]. split; [exact N|].
  exact (proj2 (proj2 (proj2
           (interest_end_fires_exactly_once (host := polite) tt
              [Register 0 true] (Plain 7) [Unregister 0]
              polite_well_behaved N))) eq_refl).
Defined.

(** C4, as stated, fails.  An interested observer, a passive observer that
    raises at whatever it is called with, and then a callback handed to
    [on_interest_end]: its lambda is behind the raiser in the list.  When the
    interested observer leaves by its handle, [_end] sets the field to
    [False] and goes over the list; the raiser's exception comes out of the
    handle before the lambda is reached.  The point has ended and the
    callback has not been called, nor is it by anything done later. *)
Lemma interest_end_callback_is_lost_behind_a_raiser :
  let w1 := snd (run (host := rude)
                   [Register 5 true; Register 3 false; InterestEnd (Plain 7)]
                   (fresh tt)) in
  let w2 := snd (call_handle (host := rude) (partial_unregister 5) w1) in
  let w3 := snd (run (host := rude)
                   [Push a_response true; Unregister 3; Unregister 5] w2) in
  _event_callbacks w1
  = Open [(Direct 5, true); (Direct 3, false); (Lambda (Plain 7), false)]
  /\ fst (call_handle (host := rude) (partial_unregister 5) w1)
     = Raise (OtherException 0)
  /\ _event_callbacks w2 = Ended
  /\ deliveries (calls w2) = [(Direct 3, tombstone)]
  /\ times_fired (Plain 7) (calls w2) = 0
  /\ _event_callbacks w3 = Ended
  /\ times_fired (Plain 7) (calls w3) = 0.
Proof. repeat split. Qed.

Lemma reentrant_push_is_rejected_witness :
  respects_dispatch rude
  /\ _event_callbacks a_dispatching_point = Dispatching
  /\ add_response (host := rude) a_response false a_dispatching_point
     = (Raise TypeError,
        at_pass {| message := Some a_response; exception := None;
                   is_last := false |} a_dispatching_point).
Proof.
  split; [exact rude_respects_dispatch|]. split; [reflexivity|].
  exact (proj1 (reentrant_push_is_rejected (host := rude)
                  a_dispatching_point rude_respects_dispatch eq_refl)
           a_response false).
Defined.

(** C5, as stated, fails on its "does not crash the point".  Observer 10
    pushes from inside its callback and lets the [TypeError] pass: the outer
    push raises, observer 0 behind it is never called, and the point refuses
    every call from then on. *)
Lemma reentrant_push_wedges_the_point :
  run (host := rude)
    [Register 10 true; Register 0 true; Push a_response false;
     Push a_response false; Register 5 true; Unregister 0]
    (fresh tt)
  = ([Ok tt; Ok tt; Raise TypeError; Raise TypeError; Raise AttributeError;
      Raise TypeError],
     {| _event_callbacks := Dispatching; log := []; tasks := [];
        calls := [Pushed {| message := Some a_response; exception := None;
                            is_last := false |};
                  Delivered (Direct 10)
                    {| message := Some a_response; exception := None;
                       is_last := false |};
                  Pushed {| message := Some a_response; exception := None;
                            is_last := false |};
                  Pushed {| message := Some a_response; exception := None;
                            is_last := false |}];
        env := tt |}).
Proof. reflexivity. Qed.

Lemma unregister_during_dispatch_raises_witness :
  _event_callbacks a_dispatching_point = Dispatching
  /\ call_handle (host := polite) (partial_unregister 0) a_dispatching_point
     = (Raise TypeError, a_dispatching_point).
Proof.
  split; [reflexivity|].
  exact (unregister_during_dispatch_raises (host := polite)
           a_dispatching_point 0 eq_refl).
Defined.

(** C6, as stated, fails: called in a pass, a handle raises.  Observer 12
    calls its own handle and the push that called it raises [TypeError];
    observer 13 does the same, catches the error and returns a true value,
    and is still registered after the pass: the removal was not put off, it
    was refused. *)
Lemma handle_in_pass_raises :
  fst (call_handle (host := polite) (partial_unregister 12)
         (at_pass {| message := Some a_response; exception := None;
                     is_last := false |}
            (open_with [(Direct 12, true); (Direct 0, true)])))
  = Raise TypeError
  /\ fst (add_response (host := rude) a_response false
            (open_with [(Direct 12, true); (Direct 0, true)]))
     = Raise TypeError
  /\ _event_callbacks
       (snd (add_response (host := rude) a_response false
               (open_with [(Direct 12, true); (Direct 0, true)])))
     = Dispatching
  /\ add_response (host := rude) a_response false
       (open_with [(Direct 13, true); (Direct 0, true)])
     = (Ok tt,
        {| _event_callbacks := Open [(Direct 13, true); (Direct 0, true)];
           log := []; tasks := [];
           calls := [Pushed {| message := Some a_response; exception := None;
                               is_last := false |};
                     Delivered (Direct 13)
                       {| message := Some a_response; exception := None;
                          is_last := false |};
                     Delivered (Direct 0)
                       {| message := Some a_response; exception := None;
                          is_last := false |}];
           env := tt |}).
Proof. repeat split. Qed.

Lemma late_push_is_dropped_witness :
  _event_callbacks an_ended_point = Ended
  /\ dropped_with_warning
       {| message := Some a_response; exception := None; is_last := false |}
       an_ended_point
       (add_response (host := polite) a_response false an_ended_point).
Proof.
  split; [reflexivity|].
  exact (proj1 (late_push_is_dropped (host := polite) an_ended_point eq_refl)
           a_response false).
Defined.

Lemma on_event_after_end_raises_witness :
  _event_callbacks an_ended_point = Ended
  /\ on_event 0 true an_ended_point = (Raise AttributeError, an_ended_point).
Proof.
  split; [reflexivity|].
  exact (on_event_after_end_raises an_ended_point 0 true eq_refl).
Defined.

Lemma raising_observer_wedges_the_point_witness :
  respects_dispatch rude
  /\ _event_callbacks a_point_with_a_raiser
     = Open [(Direct 0, true); (Direct 3, true); (Direct 5, true)]
  /\ surviving_of (host := rude)
       {| message := Some a_response; exception := None; is_last := false |}
       [(Direct 0, true); (Direct 3, true); (Direct 5, true)]
       (at_pass {| message := Some a_response; exception := None;
                   is_last := false |} a_point_with_a_raiser)
     = (Raise (OtherException 0), a_wedged_point)
  /\ add_response (host := rude) a_response false a_point_with_a_raiser
     = (Raise (OtherException 0), a_wedged_point).
Proof.
  split; [exact rude_respects_dispatch|]. split; [reflexivity|].
  split; [reflexivity|].
  exact (proj1 (proj2
           (raising_observer_wedges_the_point (host := rude)
              a_point_with_a_raiser
              [(Direct 0, true); (Direct 3, true); (Direct 5, true)]
              {| message := Some a_response; exception := None;
                 is_last := false |}
              (OtherException 0) a_wedged_point
              rude_respects_dispatch eq_refl eq_refl))
           a_response false eq_refl).
Defined.

Lemma wrapped_pushes_by_outcome_witness :
  well_behaved polite
  /\ _event_callbacks (open_with [(Direct 2, true)]) <> Dispatching
  /\ fails_with_Exception (RenderFails ValueError)
  /\ pushes_one (final_response (Message_of_code 160))
       (open_with [(Direct 2, true)])
       (wrapped (host := polite)
          (Throws (RenderableError (RenderFails ValueError)))
          (open_with [(Direct 2, true)])).
Proof.
  assert (N : _event_callbacks (open_with [(Direct 2, true)]) <> Dispatching)
    by discriminate.
  split; [exact polite_well_behaved|]. split; [exact N|].
  split; [reflexivity|].
  exact (proj1 (wrapped_pushes_by_outcome (host := polite)
                  (open_with [(Direct 2, true)]) polite_well_behaved N)
           (RenderFails ValueError) eq_refl).
Defined.

(** C8, as stated, fails.  An exception of the coroutine that is neither an
    [Exception] nor a [CancelledError] is not a cooperative cancellation, and
    results in no event: it comes out of [wrapped] as it is.  So does such an
    exception raised by [to_message()].  And when an observer raises at the
    internal-server-error response pushed for a [ValueError], its exception
    comes out of [wrapped] and the error is never logged. *)
Lemma wrapped_pushes_nothing_or_logs_nothing :
  is_CancelledError (OtherBaseException 1) = false
  /\ wrapped (host := polite) (Throws (OtherBaseException 1))
       (open_with [(Direct 0, true)])
     = (Raise (OtherBaseException 1), open_with [(Direct 0, true)])
  /\ fst (wrapped (host := polite)
            (Throws (RenderableError (RenderFails (OtherBaseException 1))))
            (open_with [(Direct 0, true)]))
     = Raise (OtherBaseException 1)
  /\ calls (snd (wrapped (host := polite)
                   (Throws (RenderableError
                              (RenderFails (OtherBaseException 1))))
                   (open_with [(Direct 0, true)]))) = []
  /\ is_Exception ValueError = true
  /\ fst (wrapped (host := rude) (Throws ValueError) a_point_with_a_raiser)
     = Raise (OtherException 0)
  /\ pushes (calls (snd (wrapped (host := rude) (Throws ValueError)
                           a_point_with_a_raiser)))
     = [final_response (Message_of_code 160)]
  /\ log (snd (wrapped (host := rude) (Throws ValueError)
                 a_point_with_a_raiser)) = [].
Proof. repeat split. Qed.

(** C2, the code at its failing input: an open point with one observer that
    counts as interest; [run_driving_plumbing_request] is called, then the
    observer's handle.  The binder has registered nothing, so the point ends
    without calling anything, and the task it created has no cancellation
    requested. *)
Theorem binder_task_is_never_cancelled :
  let w0 := open_with [(Direct 0, true)] in
  let w1 := snd (run_driving_plumbing_request (host := polite) 7 None w0) in
  let w2 := snd (call_handle (host := polite) (partial_unregister 0) w1) in
  _event_callbacks w1 = _event_callbacks w0
  /\ _event_callbacks w2 = Ended
  /\ calls w2 = []
  /\ tasks w2 = [{| task_name := None; task_awaits := 7;
                    cancel_requested := false |}].
Proof. repeat split. Qed.

(** Had [task.cancel] been handed to [on_interest_end], as the docstring of
    [run_driving_plumbing_request] says it is, the same handle would have
    cancelled the task. *)
Lemma cancel_handed_in_by_hand_reaches_the_task :
  let w0 := open_with [(Direct 0, true)] in
  let w1 := snd (run_driving_plumbing_request (host := polite) 7 None w0) in
  let w1' := snd (on_interest_end (host := polite) (TaskCancel 0) w1) in
  let w2 := snd (call_handle (host := polite) (partial_unregister 0) w1') in
  _event_callbacks w2 = Ended
  /\ firings (calls w2) = [TaskCancel 0]
  /\ tasks w2 = [{| task_name := None; task_awaits := 7;
                    cancel_requested := true |}].
Proof. repeat split. Qed.

(** * Further properties *)

Section FurtherProperties.

Context {Env : Type} {host : Host Env}.

(** ** Equations of the methods on an open point *)

Lemma end_open_eq (w : World Env) l :
  _event_callbacks w = Open l ->
  _end w = call_each tombstone l (with_callbacks Ended w).
Proof.
  intros H. unfold _end, bind, get_event_callbacks, set_event_callbacks,
    iterate, ret.
  rewrite H. reflexivity.
Qed.

Lemma unregister_open_eq (w : World Env) l callback :
  _event_callbacks w = Open l ->
  _unregister_on_event callback w
  = (let l' := filter (fun '(cb, _) => negb (is_ callback cb)) l in
     if existsb snd l' then (Ok tt, with_callbacks (Open l') w)
     else _end (with_callbacks (Open l') w)).
Proof.
  intros H.
  unfold _unregister_on_event, _any_interest, bind, get_event_callbacks,
    set_event_callbacks, iterate, ret.
  rewrite H. simpl.
  destruct (existsb snd (filter (fun '(cb, _) => negb (is_ callback cb)) l));
    reflexivity.
Qed.

Lemma with_callbacks_same (w : World Env) c :
  _event_callbacks w = c -> with_callbacks c w = w.
Proof. intros <-. destruct w. reflexivity. Qed.

(** ** The results of the calls *)

Lemma perform_ended_result (w : World Env) o :
  well_behaved host ->
  _event_callbacks w = Ended ->
  fst (perform o w) = result_when_ended o.
Proof.
  intros W H. destruct o as [cb i|cb|c|m il|x]; simpl.
  - unfold bind. rewrite on_event_ended by assumption. reflexivity.
  - rewrite unregister_ended by assumption. reflexivity.
  - destruct (on_interest_end_ended_wb w c W H) as (w' & -> & _).
    reflexivity.
  - unfold add_response.
    destruct (add_event_ended (host := host) w
                {| message := Some m; exception := None; is_last := il |} H)
      as (R & _).
    exact R.
  - unfold add_exception.
    destruct (add_event_ended (host := host) w
                {| message := None; exception := Some x; is_last := true |} H)
      as (R & _).
    exact R.
Qed.

Lemma perform_open_result (w : World Env) l o :
  well_behaved host ->
  _event_callbacks w = Open l ->
  fst (perform o w) = Ok tt
  /\ _event_callbacks (snd (perform o w)) <> Dispatching.
Proof.
  intros W H. destruct o as [cb i|cb|c|m il|x]; simpl.
  - destruct (on_event_open w l cb i H) as (w' & E' & E & _).
    unfold bind. rewrite E'. simpl. rewrite E. split; [auto | discriminate].
  - destruct (unregister_open_wb w l cb W H) as (w' & -> & E & _).
    simpl. rewrite E. split; [auto|].
    destruct (existsb snd _); discriminate.
  - destruct (on_interest_end_open_wb w l c W H) as (w' & -> & E & _).
    simpl. rewrite E. split; [auto|].
    destruct (existsb snd l); discriminate.
  - unfold add_response.
    destruct (add_event_open_wb w l
                {| message := Some m; exception := None; is_last := il |} W H)
      as (s & w' & -> & _ & _ & _ & E & _).
    simpl. rewrite E. split; [auto|]. destruct (existsb snd s); discriminate.
  - unfold add_exception.
    destruct (add_event_open_wb w l
                {| message := None; exception := Some x; is_last := true |}
                W H)
      as (s & w' & -> & _ & _ & _ & E & _).
    simpl. rewrite E. split; [auto|]. destruct (existsb snd s); discriminate.
Qed.

Lemma perform_not_dispatching (w : World Env) o :
  well_behaved host ->
  _event_callbacks w <> Dispatching ->
  fst (perform o w) = expected_result w o
  /\ _event_callbacks (snd (perform o w)) <> Dispatching.
Proof.
  intros W ND. unfold expected_result, is_ended.
  destruct (_event_callbacks w) as [l| |] eqn:H; [|congruence|].
  - apply (perform_open_result w l o W H).
  - split; [apply perform_ended_result; assumption|].
    destruct (perform_ended_wb w o W H) as (E & _). rewrite E. discriminate.
Qed.

Lemma run_not_dispatching ops :
  well_behaved host ->
  forall w : World Env,
  _event_callbacks w <> Dispatching ->
  _event_callbacks (snd (run ops w)) <> Dispatching.
Proof.
  intros W. induction ops as [|o ops IH]; intros w ND; [exact ND|].
  rewrite run_cons. simpl snd. apply IH.
  apply perform_not_dispatching; assumption.
Qed.

Lemma run_app_fst ops1 ops2 (w : World Env) :
  fst (run (ops1 ++ ops2) w)
  = fst (run ops1 w) ++ fst (run ops2 (snd (run ops1 w))).
Proof.
  revert w. induction ops1 as [|o ops1 IH]; intros w; [reflexivity|].
  rewrite <- app_comm_cons, !run_cons. simpl. rewrite IH. reflexivity.
Qed.

(** X4: with callables that return and keep out of the point, no call in any
    sequence of calls on a new point raises, except [on_event] on a point
    that has ended, which raises [AttributeError]; and no call finds the
    point in the middle of a pass. *)
Theorem only_late_registration_raises (e0 : Env) ops1 o ops2 :
  well_behaved host ->
  _event_callbacks (snd (run (ops1 ++ o :: ops2) (fresh e0))) <> Dispatching
  /\ fst (perform o (snd (run ops1 (fresh e0))))
     = expected_result (snd (run ops1 (fresh e0))) o.
Proof.
  intros W. split.
  - apply run_not_dispatching; [exact W | discriminate].
  - apply perform_not_dispatching; [exact W|].
    apply run_not_dispatching; [exact W | discriminate].
Qed.

(** ** A point that has ended *)

Lemma handed_app a b : handed (a ++ b) = handed a ++ handed b.
Proof.
  induction a as [|o a IH]; [reflexivity|].
  destruct o; simpl; rewrite IH; reflexivity.
Qed.


(** ** Interest *)

Lemma thinned_no_interest (s l : list (observer * bool)) :
  thinned s l -> existsb snd l = false -> existsb snd s = false.
Proof.
  induction 1 as [|x s l T IH|x s l T IH]; simpl; intros I.
  - reflexivity.
  - apply orb_false_iff in I. apply IH, I.
  - apply orb_false_iff in I. destruct I as [-> I]. simpl. apply IH, I.
Qed.

(** One call on an open point with interest leaves it with interest, or
    ended. *)
Lemma perform_keeps_interest (w : World Env) o :
  well_behaved host ->
  _event_callbacks w <> Dispatching ->
  existsb snd (registered w) = true ->
  _event_callbacks (snd (perform o w)) = Ended
  \/ (_event_callbacks (snd (perform o w)) <> Dispatching
      /\ existsb snd (registered (snd (perform o w))) = true).
Proof.
  intros W ND I.
  destruct (_event_callbacks w) as [l| |] eqn:H;
    [|congruence|rewrite (registered_ended w H) in I; discriminate].
  rewrite (registered_open w l H) in I.
  assert (P : forall event,
    _event_callbacks (snd (_add_event event w)) = Ended
    \/ (_event_callbacks (snd (_add_event event w)) <> Dispatching
        /\ existsb snd (registered (snd (_add_event event w))) = true)).
  { intros event.
    destruct (add_event_open_wb w l event W H)
      as (s & w' & -> & _ & _ & _ & E & _).
    simpl snd. unfold registered. rewrite E.
    destruct (existsb snd s) eqn:Is; [right | left; reflexivity].
    split; [discriminate | exact Is]. }
  destruct o as [cb i|cb|c|m il|x]; simpl; [| | |apply P|apply P].
  - right. destruct (on_event_open w l cb i H) as (w' & E' & E & _).
    unfold bind. rewrite E'. simpl. unfold registered. rewrite E.
    split; [discriminate | apply existsb_snd_app; exact I].
  - destruct (unregister_open_wb w l cb W H) as (w' & -> & E & _).
    simpl snd. unfold registered. rewrite E.
    destruct (existsb snd (filter (fun '(cb0, _) => negb (is_ cb cb0)) l))
      eqn:Il; [right | left; reflexivity].
    split; [discriminate | exact Il].
  - right. destruct (on_interest_end_open_wb w l c W H) as (w' & -> & E & _).
    simpl snd. unfold registered. rewrite E, I.
    split; [discriminate | apply existsb_snd_app; exact I].
Qed.

(** X5: with callables that return and keep out of the point, a point that
    has an observer counting as interest is, after any calls, either ended or
    still has one: interest is lost at no other moment than the end of the
    point. *)
Theorem interest_lasts_until_the_end (w : World Env) ops :
  well_behaved host ->
  _event_callbacks w <> Dispatching ->
  existsb snd (registered w) = true ->
  _event_callbacks (snd (run ops w)) = Ended
  \/ (_event_callbacks (snd (run ops w)) <> Dispatching
      /\ existsb snd (registered (snd (run ops w))) = true).
Proof.
  intros W. revert w. induction ops as [|o ops IH]; intros w ND I.
  - right. auto.
  - rewrite run_cons. simpl snd.
    destruct (perform_keeps_interest w o W ND I) as [E | [ND' I']].
    + left. apply (run_ended_wb ops _ W E).
    + apply IH; assumption.
Qed.

(** X2: on an open point none of whose observers counts as interest (a new
    point with no observer among them), a push calls every observer with the
    event and the survivors with the tombstone, and the point has ended: an
    [on_event] that comes after it raises. *)
Theorem push_without_interest_ends_the_point (w : World Env) l :
  well_behaved host ->
  _event_callbacks w = Open l ->
  existsb snd l = false ->
  (forall response is_last,
     ends_at_once
       {| message := Some response; exception := None; is_last := is_last |}
       l w (add_response response is_last w)
     /\ forall callback is_interest,
          fst (on_event callback is_interest
                 (snd (add_response response is_last w)))
          = Raise AttributeError)
  /\ (forall exception,
     ends_at_once
       {| message := None; exception := Some exception; is_last := true |}
       l w (add_exception exception w)
     /\ forall callback is_interest,
          fst (on_event callback is_interest
                 (snd (add_exception exception w)))
          = Raise AttributeError).
Proof.
  intros W H I.
  assert (P : forall event,
    ends_at_once event l w (_add_event event w)
    /\ forall callback is_interest,
         fst (on_event callback is_interest (snd (_add_event event w)))
         = Raise AttributeError).
  { intros event.
    destruct (add_event_pass_outcome w l event W H) as (s & S & T & R & E & D).
    rewrite (thinned_no_interest s l T I) in E, D.
    split.
    - exists s. auto.
    - intros callback is_interest.
      rewrite (on_event_ended _ callback is_interest E). reflexivity. }
  split; intros; apply P.
Qed.

(** ** Order *)

Lemma run_registrations (regs : list (event_cb * bool)) :
  forall (w : World Env) l,
  _event_callbacks w = Open l ->
  _event_callbacks (snd (run (map registration regs) w))
  = Open (l ++ map entry regs)
  /\ calls (snd (run (map registration regs) w)) = calls w.
Proof.
  induction regs as [|[cb i] regs IH]; intros w l H.
  - simpl. rewrite app_nil_r. auto.
  - cbn [map]. change (registration (cb, i)) with (Register cb i).
    rewrite run_cons. simpl snd. simpl perform.
    destruct (on_event_open w l cb i H) as (w' & E' & E & C).
    unfold bind. rewrite E'. simpl snd.
    destruct (IH w' _ E) as (E2 & C2).
    rewrite E2, C2, C, <- app_assoc. auto.
Qed.

(** X1: observers are called in the order of their registration: after
    [on_event] for each of [regs] in turn on a new point, a push calls them
    with its event in that order, and, if the point ends, the survivors with
    the tombstone in that order again. *)
Theorem delivery_follows_registration (e0 : Env)
    (regs : list (event_cb * bool)) :
  well_behaved host ->
  deliveries (calls (snd (run (map registration regs) (fresh e0)))) = []
  /\ (forall response is_last,
     pass_outcome
       {| message := Some response; exception := None; is_last := is_last |}
       (map entry regs) (snd (run (map registration regs) (fresh e0)))
       (add_response response is_last
          (snd (run (map registration regs) (fresh e0)))))
  /\ (forall exception,
     pass_outcome
       {| message := None; exception := Some exception; is_last := true |}
       (map entry regs) (snd (run (map registration regs) (fresh e0)))
       (add_exception exception
          (snd (run (map registration regs) (fresh e0))))).
Proof.
  intros W.
  destruct (run_registrations regs (fresh e0) [] eq_refl) as (E & C).
  simpl app in E.
  split; [rewrite C; reflexivity|].
  split; intros; apply add_event_pass_outcome; assumption.
Qed.

(** ** Handles *)

Lemma filter_twice {A : Type} (p : A -> bool) (l : list A) :
  filter p (filter p l) = filter p l.
Proof.
  induction l as [|x l IH]; [reflexivity|].
  simpl. destruct (p x) eqn:P; simpl; rewrite ?P, IH; reflexivity.
Qed.

(** X6: calling a handle a second time does nothing: when the first call has
    returned, on a point that was not in the middle of a pass, the second
    returns too and leaves everything as the first left it. *)
Theorem handle_twice_is_handle_once (w : World Env) h :
  well_behaved host ->
  _event_callbacks w <> Dispatching ->
  call_handle h (snd (call_handle h w)) = (Ok tt, snd (call_handle h w)).
Proof.
  intros W ND. destruct h as [cb]. simpl.
  destruct (_event_callbacks w) as [l| |] eqn:H; [|congruence|].
  - destruct (unregister_open_wb w l cb W H) as (w1 & E1 & E & _).
    rewrite E1. simpl snd.
    set (l' := filter (fun '(cb0, _) => negb (is_ cb cb0)) l) in *.
    destruct (existsb snd l') eqn:I.
    + rewrite (unregister_open_eq w1 l' cb E). cbv zeta.
      unfold l' at 1 2 3. rewrite filter_twice. fold l'. rewrite I.
      rewrite (with_callbacks_same w1 (Open l') E). reflexivity.
    + apply unregister_ended. exact E.
  - rewrite (unregister_ended w cb H). simpl. apply unregister_ended. exact H.
Qed.

(** ** Counting what any observer gets *)

Lemma times_registered_cons o r (l : list (observer * bool)) :
  times_registered o (r :: l)
  = (if observer_eqb o (fst r) then 1 else 0) + times_registered o l.
Proof.
  unfold times_registered. cbn [filter].
  destruct (observer_eqb o (fst r)); reflexivity.
Qed.

Lemma times_registered_app o (a b : list (observer * bool)) :
  times_registered o (a ++ b) = times_registered o a + times_registered o b.
Proof.
  unfold times_registered. rewrite filter_app, length_app. reflexivity.
Qed.

Lemma times_registered_thinned o (s l : list (observer * bool)) :
  thinned s l -> times_registered o s <= times_registered o l.
Proof.
  induction 1 as [|x s l T IH|x s l T IH];
    rewrite ?times_registered_cons; simpl; lia.
Qed.

Lemma received_pass o event (l : list (observer * bool)) :
  received o (flat_map (calls_of event) l)
  = repeat event (times_registered o l).
Proof.
  unfold received. rewrite deliveries_calls_of.
  induction l as [|[cb i] rest IH]; [reflexivity|].
  rewrite times_registered_cons. unfold pass_over in *.
  cbn [map filter fst snd].
  destruct (observer_eqb o cb); cbn [map snd Nat.add repeat];
    rewrite IH; reflexivity.
Qed.

Lemma times_registered_unregistered cb (l : list (observer * bool)) :
  times_registered (Direct cb)
    (filter (fun '(x, _) => negb (is_ cb x)) l) = 0.
Proof.
  induction l as [|[x i] rest IH]; [reflexivity|].
  cbn [filter]. destruct x as [g|c]; simpl.
  - destruct (Nat.eqb cb g) eqn:Q; simpl; [exact IH|].
    rewrite times_registered_cons. simpl. rewrite Q. exact IH.
  - rewrite times_registered_cons. simpl. exact IH.
Qed.

Lemma times_registered_other cb c (l : list (observer * bool)) :
  Nat.eqb cb c = false ->
  times_registered (Direct cb) (filter (fun '(x, _) => negb (is_ c x)) l)
  = times_registered (Direct cb) l.
Proof.
  intros N. induction l as [|[x i] rest IH]; [reflexivity|].
  cbn [filter]. destruct x as [g|d]; simpl.
  - destruct (Nat.eqb c g) eqn:Q; simpl.
    + rewrite times_registered_cons. simpl.
      apply Nat.eqb_eq in Q. subst g. rewrite N. exact IH.
    + rewrite !times_registered_cons. simpl. rewrite IH. reflexivity.
  - rewrite !times_registered_cons. simpl. rewrite IH. reflexivity.
Qed.

(** What a push on an open point adds to what [o] has received. *)
Lemma add_event_received (w : World Env) l event o :
  well_behaved host ->
  _event_callbacks w = Open l ->
  exists s,
    fst (surviving_of event l (at_pass event w)) = Ok s
    /\ thinned s l
    /\ _event_callbacks (snd (_add_event event w))
       = (if existsb snd s then Open s else Ended)
    /\ pushes (calls (snd (_add_event event w)))
       = pushes (calls w) ++ [event]
    /\ received o (calls (snd (_add_event event w)))
       = received o (calls w)
         ++ repeat event (times_registered o l)
         ++ (if existsb snd s then []
             else repeat tombstone (times_registered o s)).
Proof.
  intros W H.
  destruct (add_event_open_wb w l event W H)
    as (s & w' & Hw & S & T & _ & E & C).
  destruct (add_event_pushes_one w event W) as [_ P];
    [rewrite H; discriminate|].
  exists s. rewrite Hw in *. simpl snd in *.
  split; [exact S|]. split; [exact T|]. split; [exact E|].
  split; [exact P|].
  rewrite C.
  change (Pushed event :: flat_map (calls_of event) l
          ++ (if existsb snd s then [] else flat_map (calls_of tombstone) s))
    with ([Pushed event] ++ flat_map (calls_of event) l
          ++ (if existsb snd s then [] else flat_map (calls_of tombstone) s)).
  rewrite !received_app, received_pass.
  change (received o [Pushed event]) with (@nil Event). simpl app.
  destruct (existsb snd s); [reflexivity|].
  rewrite received_pass. reflexivity.
Qed.

(** An observer with no registration in the list, and not put there again,
    is called by nothing. *)
Lemma perform_frame_any (w : World Env) p o :
  well_behaved host ->
  _event_callbacks w <> Dispatching ->
  times_registered o (registered w) = 0 ->
  leaves_alone o [p] ->
  _event_callbacks (snd (perform p w)) <> Dispatching
  /\ times_registered o (registered (snd (perform p w))) = 0
  /\ received o (calls (snd (perform p w))) = received o (calls w).
Proof.
  intros W ND P NH. pose proof (Forall_inv NH) as NHo. simpl in NHo. clear NH.
  destruct (_event_callbacks w) as [l| |] eqn:H; [|congruence|].
  - rewrite (registered_open w l H) in P.
    assert (A : forall event,
      _event_callbacks (snd (_add_event event w)) <> Dispatching
      /\ times_registered o (registered (snd (_add_event event w))) = 0
      /\ received o (calls (snd (_add_event event w)))
         = received o (calls w)).
    { intros event.
      destruct (add_event_received w l event o W H)
        as (s & _ & T & E & _ & R).
      pose proof (times_registered_thinned o s l T) as Ps.
      assert (Ps0 : times_registered o s = 0) by lia.
      rewrite R, P, Ps0. unfold registered. rewrite E.
      destruct (existsb snd s); simpl; rewrite ?app_nil_r;
        repeat split; auto; try discriminate. }
    destruct p as [cb i|cb|c|m il|x]; simpl; [| | |apply A|apply A].
    + destruct (on_event_open w l cb i H) as (w' & E' & E & C).
      unfold bind. rewrite E'. simpl. unfold registered. rewrite E, C.
      rewrite times_registered_app, P. unfold times_registered at 1.
      simpl. rewrite NHo. repeat split; auto; try discriminate.
    + destruct (unregister_open_wb w l cb W H) as (w' & -> & E & C).
      simpl. unfold registered. rewrite E, C, received_app.
      set (l' := filter (fun '(cb0, _) => negb (is_ cb cb0)) l) in *.
      assert (P' : times_registered o l' = 0).
      { pose proof (times_registered_thinned o l' l
                      (thinned_filter _ l)). lia. }
      destruct (existsb snd l').
      * rewrite app_nil_r. repeat split; auto; try discriminate.
      * rewrite received_pass, P'. simpl. rewrite app_nil_r.
        repeat split; auto; try discriminate.
    + destruct (on_interest_end_open_wb w l c W H) as (w' & -> & E & C).
      simpl. unfold registered. rewrite E, C, received_app.
      destruct (existsb snd l).
      * rewrite times_registered_app, P, app_nil_r.
        unfold times_registered at 1. simpl. rewrite NHo.
        repeat split; auto; try discriminate.
      * unfold received at 2. simpl. rewrite app_nil_r.
        repeat split; auto; try discriminate.
  - destruct (perform_ended_wb w p W H) as (E & D & _).
    rewrite (registered_ended _ E), (received_deliveries _ _ _ D).
    repeat split; auto. rewrite E. discriminate.
Qed.

Lemma leaves_alone_cons o p ops :
  leaves_alone o (p :: ops) -> leaves_alone o [p] /\ leaves_alone o ops.
Proof.
  intros H. inversion H; subst. split; [repeat constructor|]; assumption.
Qed.

Lemma run_frame_any ops o :
  well_behaved host ->
  leaves_alone o ops ->
  forall w : World Env,
  _event_callbacks w <> Dispatching ->
  times_registered o (registered w) = 0 ->
  _event_callbacks (snd (run ops w)) <> Dispatching
  /\ times_registered o (registered (snd (run ops w))) = 0
  /\ received o (calls (snd (run ops w))) = received o (calls w).
Proof.
  intros W. induction ops as [|p ops IH]; intros NH w ND P.
  - simpl. auto.
  - apply leaves_alone_cons in NH. destruct NH as [NHo NH].
    rewrite run_cons. simpl snd.
    destruct (perform_frame_any w p o W ND P NHo) as (A & B & C).
    destruct (IH NH _ A B) as (A' & B' & C').
    repeat split; auto; congruence.
Qed.

(** X7: once its handle has been called, on a point that is not in the
    middle of a pass, a callable is called with nothing any more, the
    tombstone included, whatever is called afterwards, unless it is handed to
    [on_event] again; this holds however often it had been registered. *)
Theorem unregistered_is_never_called_again (w : World Env) cb ops :
  well_behaved host ->
  _event_callbacks w <> Dispatching ->
  leaves_alone (Direct cb) ops ->
  received (Direct cb)
    (calls (snd (run ops (snd (call_handle (partial_unregister cb) w)))))
  = received (Direct cb) (calls w).
Proof.
  intros W ND NH. simpl call_handle.
  assert (K : _event_callbacks (snd (_unregister_on_event cb w))
              <> Dispatching
              /\ times_registered (Direct cb)
                   (registered (snd (_unregister_on_event cb w))) = 0
              /\ received (Direct cb)
                   (calls (snd (_unregister_on_event cb w)))
                 = received (Direct cb) (calls w)).
  { destruct (_event_callbacks w) as [l| |] eqn:H; [|congruence|].
    - destruct (unregister_open_wb w l cb W H) as (w' & -> & E & C).
      simpl snd. unfold registered. rewrite E, C, received_app.
      set (l' := filter (fun '(cb0, _) => negb (is_ cb cb0)) l) in *.
      assert (P' : times_registered (Direct cb) l' = 0)
        by apply times_registered_unregistered.
      destruct (existsb snd l').
      + rewrite app_nil_r. repeat split; auto; try discriminate.
      + rewrite received_pass, P'. simpl. rewrite app_nil_r.
        repeat split; auto; try discriminate.
    - rewrite (unregister_ended w cb H). simpl snd.
      rewrite (registered_ended w H). repeat split; auto.
      rewrite H. discriminate. }
  destruct K as (ND1 & P1 & R1).
  destruct (run_frame_any ops (Direct cb) W NH _ ND1 P1) as (_ & _ & R).
  congruence.
Qed.

(** ** An observer that stays *)

Lemma call_observer_keeps (w : World Env) cb event :
  always_keeps host cb ->
  forall keep w', call_observer (Direct cb) event w = (Ok keep, w') ->
                  keep = true.
Proof.
  intros K keep w'. unfold call_observer, bind, note. simpl.
  intros E. specialize (K event
    {| _event_callbacks := _event_callbacks w; log := log w;
       tasks := tasks w;
       calls := calls w ++ [Delivered (Direct cb) event]; env := env w |}).
  rewrite E in K. simpl in K. congruence.
Qed.

Lemma surviving_of_keeps cb event (l : list (observer * bool)) :
  always_keeps host cb ->
  forall (w : World Env) s w',
  surviving_of event l w = (Ok s, w') ->
  times_registered (Direct cb) s = times_registered (Direct cb) l.
Proof.
  intros K. induction l as [|[o i] rest IH]; intros w s w' E.
  - simpl in E. unfold ret in E. inversion E. reflexivity.
  - rewrite surviving_of_cons in E.
    destruct (call_observer o event w) as [[keep|x] w1] eqn:E1;
      [|discriminate].
    destruct (surviving_of event rest w1) as [[tl|x] w2] eqn:E2;
      [|discriminate].
    specialize (IH w1 tl w2 E2).
    inversion E; subst. clear E. rewrite times_registered_cons. simpl fst.
    destruct (observer_eqb (Direct cb) o) eqn:Q.
    + destruct o as [g|c]; simpl in Q; [|discriminate].
      apply Nat.eqb_eq in Q. subst g.
      rewrite (call_observer_keeps w cb event K keep w1 E1).
      rewrite times_registered_cons. simpl. rewrite Nat.eqb_refl, IH.
      reflexivity.
    + destruct keep; [rewrite times_registered_cons; simpl fst; rewrite Q|];
        simpl; exact IH.
Qed.

Lemma never_unregisters_cons cb p ops :
  never_unregisters cb (p :: ops) ->
  never_unregisters cb [p] /\ never_unregisters cb ops.
Proof.
  intros H. inversion H; subst. split; [repeat constructor|]; assumption.
Qed.

Lemma leaves_alone_app o ops1 ops2 :
  leaves_alone o (ops1 ++ ops2) ->
  leaves_alone o ops1 /\ leaves_alone o ops2.
Proof. unfold leaves_alone. apply Forall_app. Qed.

(** One call, neither registering nor unregistering [cb], on an open point
    on which [cb] is followed. *)
Lemma perform_followed_exact (w : World Env) p cb before :
  well_behaved host ->
  always_keeps host cb ->
  followed_while_open cb before w ->
  leaves_alone (Direct cb) [p] ->
  never_unregisters cb [p] ->
  followed_while_open cb before (snd (perform p w))
  \/ followed_at_the_end cb before (snd (perform p w)).
Proof.
  intros W K (l & H & P & Q) NH NU.
  pose proof (Forall_inv NH) as NHo. simpl in NHo. clear NH.
  pose proof (Forall_inv NU) as NUo. simpl in NUo. clear NU.
  unfold followed_while_open, followed_at_the_end.
  assert (A : forall event,
    (exists l',
       _event_callbacks (snd (_add_event event w)) = Open l'
       /\ times_registered (Direct cb) l' = 1
       /\ pushes (calls (snd (_add_event event w)))
          = before ++ received (Direct cb)
                        (calls (snd (_add_event event w))))
    \/ (_event_callbacks (snd (_add_event event w)) = Ended
        /\ exists seen,
             pushes (calls (snd (_add_event event w))) = before ++ seen
             /\ received (Direct cb) (calls (snd (_add_event event w)))
                = seen ++ [tombstone])).
  { intros event.
    destruct (add_event_received w l event (Direct cb) W H)
      as (s & S & _ & E & Pu & R).
    assert (Ps : times_registered (Direct cb) s = 1).
    { destruct (surviving_of event l (at_pass event w)) as [[s0|x] w1] eqn:E0;
        simpl in S; [|discriminate].
      inversion S; subst s0.
      rewrite (surviving_of_keeps cb event l K _ _ _ E0). exact P. }
    rewrite E, Pu, R, P, Ps, Q. simpl repeat.
    destruct (existsb snd s).
    - left. exists s. rewrite app_nil_r, app_assoc. auto.
    - right. split; [reflexivity|].
      exists (received (Direct cb) (calls w) ++ [event]).
      rewrite <- !app_assoc. auto. }
  destruct p as [c i|c|c|m il|x]; simpl; [| | |apply A|apply A].
  - left. destruct (on_event_open w l c i H) as (w' & E' & E & C).
    unfold bind. rewrite E'. simpl snd. rewrite C.
    exists (l ++ [(Direct c, i)]). split; [exact E|].
    rewrite times_registered_app, P. unfold times_registered at 1.
    simpl. rewrite NHo. auto.
  - destruct (unregister_open_wb w l c W H) as (w' & -> & E & C).
    simpl snd. rewrite E, C.
    set (l' := filter (fun '(cb0, _) => negb (is_ c cb0)) l) in *.
    assert (P' : times_registered (Direct cb) l' = 1)
      by (unfold l'; rewrite times_registered_other; assumption).
    destruct (existsb snd l').
    + left. exists l'. rewrite app_nil_r. auto.
    + right. split; [reflexivity|].
      exists (received (Direct cb) (calls w)).
      rewrite received_app, received_pass, P', pushes_app, pushes_calls_of.
      rewrite !app_nil_r. auto.
  - left. destruct (on_interest_end_open_wb w l c W H) as (w' & -> & E & C).
    simpl snd. rewrite E, C, received_app, pushes_app.
    destruct (existsb snd l).
    + exists (l ++ [(Lambda c, false)]). split; [reflexivity|].
      rewrite times_registered_app, P, !app_nil_r.
      unfold times_registered at 1. simpl. auto.
    + exists l. split; [reflexivity|].
      unfold received at 2. simpl. rewrite !app_nil_r. auto.
Qed.

Lemma run_followed_exact ops cb before :
  well_behaved host ->
  always_keeps host cb ->
  leaves_alone (Direct cb) ops ->
  never_unregisters cb ops ->
  forall w : World Env,
  followed_while_open cb before w ->
  is_ended (snd (run ops w)) = false ->
  followed_while_open cb before (snd (run ops w)).
Proof.
  intros W K. induction ops as [|p ops IH]; intros NH NU w F NE; [exact F|].
  apply leaves_alone_cons in NH. destruct NH as [NHo NH].
  apply never_unregisters_cons in NU. destruct NU as [NUo NU].
  rewrite run_cons in *. simpl snd in *.
  destruct (perform_followed_exact w p cb before W K F NHo NUo)
    as [F' | (E & _)].
  - apply (IH NH NU _ F' NE).
  - destruct (run_ended_wb ops _ W E) as (E' & _).
    unfold is_ended in NE. rewrite E' in NE. discriminate.
Qed.

(** X8: with callables that return and keep out of the point, a callable
    that answers every event with a true value, registered once on a point
    that has not ended and never unregistered: as long as the point is open
    it has been called with every event pushed since its registration, in the
    order of the pushes; at the call that ends the point it has been called
    with every event pushed up to and with that call, and then once with the
    tombstone; and no later call calls it with anything.  For a passive
    observer this is the "(None, None, is_last=True) event eventually" of the
    docstring of [on_event]. *)
Theorem staying_observer_is_followed_to_the_end (e0 : Env) ops1 cb
    is_interest opsA o opsB :
  well_behaved host ->
  always_keeps host cb ->
  leaves_alone (Direct cb) (ops1 ++ opsA ++ o :: opsB) ->
  never_unregisters cb (opsA ++ o :: opsB) ->
  is_ended (snd (run ops1 (fresh e0))) = false ->
  is_ended
    (snd (run opsA (snd (perform (Register cb is_interest)
                           (snd (run ops1 (fresh e0))))))) = false ->
  followed_while_open cb (pushes (calls (snd (run ops1 (fresh e0)))))
    (snd (run opsA (snd (perform (Register cb is_interest)
                           (snd (run ops1 (fresh e0)))))))
  /\ (followed_while_open cb (pushes (calls (snd (run ops1 (fresh e0)))))
        (snd (run (opsA ++ [o])
                (snd (perform (Register cb is_interest)
                        (snd (run ops1 (fresh e0)))))))
      \/ (followed_at_the_end cb
            (pushes (calls (snd (run ops1 (fresh e0)))))
            (snd (run (opsA ++ [o])
                    (snd (perform (Register cb is_interest)
                            (snd (run ops1 (fresh e0)))))))
          /\ received (Direct cb)
               (calls (snd (run (opsA ++ o :: opsB)
                              (snd (perform (Register cb is_interest)
                                      (snd (run ops1 (fresh e0))))))))
             = received (Direct cb)
                 (calls (snd (run (opsA ++ [o])
                                (snd (perform (Register cb is_interest)
                                        (snd (run ops1 (fresh e0)))))))))).
Proof.
  intros W K NH NU NE NEa.
  apply leaves_alone_app in NH. destruct NH as [NH1 NH2].
  apply leaves_alone_app in NH2. destruct NH2 as [NHa NHo].
  apply leaves_alone_cons in NHo. destruct NHo as [NHo NHb].
  assert (NUa : never_unregisters cb opsA /\ never_unregisters cb (o :: opsB))
    by (apply Forall_app; exact NU).
  destruct NUa as [NUa NUo].
  apply never_unregisters_cons in NUo. destruct NUo as [NUo NUb].
  destruct (run_frame_any ops1 (Direct cb) W NH1 (fresh e0))
    as (ND0 & P0 & R0); [discriminate | reflexivity |].
  set (w0 := snd (run ops1 (fresh e0))) in *.
  change (received (Direct cb) (calls (fresh e0))) with (@nil Event) in R0.
  set (w1 := snd (perform (Register cb is_interest) w0)) in *.
  assert (F1 : followed_while_open cb (pushes (calls w0)) w1).
  { unfold is_ended in NE.
    destruct (_event_callbacks w0) as [l| |] eqn:H;
      [|congruence|discriminate].
    rewrite (registered_open w0 l H) in P0.
    unfold w1. simpl perform.
    destruct (on_event_open w0 l cb is_interest H) as (w' & E' & E & C).
    unfold bind. rewrite E'. simpl snd.
    exists (l ++ [(Direct cb, is_interest)]). split; [exact E|].
    rewrite C, R0, times_registered_app, P0. unfold times_registered at 1.
    simpl. rewrite Nat.eqb_refl, app_nil_r. auto. }
  pose proof (run_followed_exact opsA cb _ W K NHa NUa w1 F1 NEa) as Fa.
  split; [exact Fa|].
  assert (Ra : snd (run (opsA ++ [o]) w1)
               = snd (perform o (snd (run opsA w1)))).
  { rewrite run_app, run_cons. reflexivity. }
  assert (Rb : snd (run (opsA ++ o :: opsB) w1)
               = snd (run opsB (snd (perform o (snd (run opsA w1)))))).
  { rewrite run_app, run_cons. reflexivity. }
  rewrite Ra, Rb.
  destruct (perform_followed_exact _ o cb _ W K Fa NHo NUo) as [F | F].
  - left. exact F.
  - right. split; [exact F|]. destruct F as (E & _).
    destruct (run_ended_wb opsB _ W E) as (_ & D).
    apply received_deliveries. exact D.
Qed.

(** ** The tombstone pass *)

Lemma call_end_cb_ended (w : World Env) callback :
  respects_end host ->
  _event_callbacks w = Ended ->
  _event_callbacks (snd (call_end_cb callback w)) = Ended
  /\ deliveries (calls (snd (call_end_cb callback w))) = deliveries (calls w).
Proof.
  intros [_ Hp] H. unfold call_end_cb, bind, note. simpl.
  set (w1 := {| _event_callbacks := _event_callbacks w; log := log w;
                tasks := tasks w; calls := calls w ++ [Fired callback];
                env := env w |}).
  assert (H1 : _event_callbacks w1 = Ended) by exact H.
  assert (D1 : deliveries (calls w1) = deliveries (calls w)).
  { unfold w1. simpl. rewrite deliveries_app. simpl. apply app_nil_r. }
  destruct callback as [f|t].
  - destruct (Hp f w1 H1) as [Ha Hb]. rewrite Ha, Hb. auto.
  - simpl. auto.
Qed.

Lemma call_observer_ended (w : World Env) cb event :
  respects_end host ->
  _event_callbacks w = Ended ->
  _event_callbacks (snd (call_observer cb event w)) = Ended
  /\ deliveries (calls (snd (call_observer cb event w)))
     = deliveries (calls w) ++ [(cb, event)].
Proof.
  intros R H. unfold call_observer, bind, note. simpl.
  set (w1 := {| _event_callbacks := _event_callbacks w; log := log w;
                tasks := tasks w; calls := calls w ++ [Delivered cb event];
                env := env w |}).
  assert (H1 : _event_callbacks w1 = Ended) by exact H.
  assert (D1 : deliveries (calls w1) = deliveries (calls w) ++ [(cb, event)]).
  { unfold w1. simpl. rewrite deliveries_app. reflexivity. }
  destruct cb as [f|callback].
  - destruct R as [Re _]. destruct (Re f event w1 H1) as [Ha Hb].
    rewrite Ha, Hb. auto.
  - destruct (is_last event).
    + destruct (call_end_cb_ended w1 callback R H1) as [Ha Hb].
      unfold bind. destruct (call_end_cb callback w1) as [[[]|x] w2];
        simpl in *; rewrite Ha, Hb; auto.
    + simpl. auto.
Qed.

Lemma call_each_ended event (l : list (observer * bool)) :
  respects_end host ->
  forall w : World Env,
  _event_callbacks w = Ended ->
  exists k,
    k <= List.length l
    /\ _event_callbacks (snd (call_each event l w)) = Ended
    /\ deliveries (calls (snd (call_each event l w)))
       = deliveries (calls w) ++ pass_over event (firstn k l)
    /\ (fst (call_each event l w) = Ok tt -> k = List.length l).
Proof.
  intros R. induction l as [|[cb i] rest IH]; intros w H.
  - exists 0. simpl. rewrite app_nil_r. auto.
  - destruct (call_observer_ended w cb event R H) as [Ha Hb].
    rewrite call_each_cons.
    destruct (call_observer cb event w) as [[keep|x] w1]; simpl in Ha, Hb.
    + destruct (IH w1 Ha) as (k & Hk & Hc & Hd & He).
      exists (S k). simpl.
      split; [lia|]. split; [exact Hc|].
      split; [rewrite Hd, Hb, <- app_assoc; reflexivity|].
      intros Hs. rewrite (He Hs). reflexivity.
    + exists 1. simpl.
      split; [lia|]. split; [exact Ha|]. split; [exact Hb|].
      intros Hs. discriminate.
Qed.

Lemma call_each_app event (a b : list (observer * bool)) :
  forall w : World Env,
  call_each event (a ++ b) w
  = match call_each event a w with
    | (Ok _, w') => call_each event b w'
    | (Raise x, w') => (Raise x, w')
    end.
Proof.
  induction a as [|[cb i] a IH]; intros w; [reflexivity|].
  rewrite <- app_comm_cons, !call_each_cons.
  destruct (call_observer cb event w) as [[keep|x] w1]; [apply IH|].
  reflexivity.
Qed.

(** X9: the field is [False] before the first observer is called with the
    tombstone.  When a handle takes the last interest away, the observers
    [front] return at the tombstone and the next one, [r], raises, then the
    exception comes out of the handle, [front] and [r] have been called with
    the tombstone once each and the observers behind [r] not at all, and the
    point has ended: its field is [False], not [None], so that a later
    [on_event] raises [AttributeError] and nothing else is stuck. *)
Theorem tombstone_pass_runs_on_the_ended_point (w : World Env) l cb front r
    behind x wf wr :
  respects_end host ->
  _event_callbacks w = Open l ->
  filter (fun '(o, _) => negb (is_ cb o)) l = front ++ r :: behind ->
  existsb snd (front ++ r :: behind) = false ->
  call_each tombstone front (with_callbacks Ended w) = (Ok tt, wf) ->
  call_observer (fst r) tombstone wf = (Raise x, wr) ->
  call_handle (partial_unregister cb) w = (Raise x, wr)
  /\ _event_callbacks wr = Ended
  /\ deliveries (calls wr)
     = deliveries (calls w) ++ pass_over tombstone (front ++ [r])
  /\ forall callback is_interest,
       on_event callback is_interest wr = (Raise AttributeError, wr).
Proof.
  intros R H Fl I Cf Cr. simpl call_handle.
  destruct (call_each_ended tombstone front R (with_callbacks Ended w)
              eq_refl) as (k & _ & Ef & Df & Kf).
  rewrite Cf in Ef, Df, Kf. simpl in Ef, Df, Kf.
  rewrite (Kf eq_refl), firstn_all in Df.
  destruct (call_observer_ended wf (fst r) tombstone R Ef) as (Er & Dr).
  rewrite Cr in Er, Dr. simpl in Er, Dr.
  split.
  - rewrite (unregister_open_eq w l cb H). cbv zeta. rewrite Fl, I.
    rewrite (end_open_eq
               (with_callbacks (Open (front ++ r :: behind)) w)
               (front ++ r :: behind) eq_refl).
    rewrite call_each_app.
    change (with_callbacks Ended
              (with_callbacks (Open (front ++ r :: behind)) w))
      with (with_callbacks Ended w).
    rewrite Cf. destruct r as [o i]. rewrite call_each_cons.
    simpl fst in Cr. rewrite Cr. reflexivity.
  - split; [exact Er|]. split.
    + rewrite Dr, Df. unfold pass_over. rewrite map_app, <- app_assoc.
      reflexivity.
    + intros callback is_interest. apply on_event_ended. exact Er.
Qed.

(** ** The tombstone, once and last *)

Lemma survivors_pinned (w : World Env) l event s :
  fst (surviving_of event l (at_pass event w)) = Ok s ->
  survivors event l w = s.
Proof. intros S. unfold survivors. rewrite S. reflexivity. Qed.

Lemma survivors_keep (w : World Env) l event cb :
  always_keeps host cb ->
  forall s, fst (surviving_of event l (at_pass event w)) = Ok s ->
  times_registered (Direct cb) (survivors event l w)
  = times_registered (Direct cb) l.
Proof.
  intros K s S. rewrite (survivors_pinned w l event s S).
  destruct (surviving_of event l (at_pass event w)) as [[s0|x] w1] eqn:E0;
    simpl in S; [|discriminate].
  inversion S; subst s0.
  apply (surviving_of_keeps cb event l K _ _ _ E0).
Qed.

(** What one call does to an open point, with the list it leaves pinned. *)
Lemma perform_open_pinned (w : World Env) l o :
  well_behaved host ->
  _event_callbacks w = Open l ->
  no_tombstone (passed_by o l)
  /\ (if may_end o && negb (existsb snd (left_by o l w))
      then _event_callbacks (snd (perform o w)) = Ended
           /\ deliveries (calls (snd (perform o w)))
              = deliveries (calls w) ++ passed_by o l
                ++ pass_over tombstone (left_by o l w)
      else _event_callbacks (snd (perform o w)) = Open (left_by o l w)
           /\ deliveries (calls (snd (perform o w)))
              = deliveries (calls w) ++ passed_by o l)
  /\ (forall event, pushed_by o = Some event ->
      fst (surviving_of event l (at_pass event w)) = Ok (left_by o l w))
  /\ (forall cb, always_keeps host cb -> pushed_by o <> None ->
      times_registered (Direct cb) (left_by o l w)
      = times_registered (Direct cb) l).
Proof.
  intros W H.
  assert (P : forall event, is_tombstone event = false ->
    no_tombstone (pass_over event l)
    /\ (if true && negb (existsb snd (survivors event l w))
        then _event_callbacks (snd (_add_event event w)) = Ended
             /\ deliveries (calls (snd (_add_event event w)))
                = deliveries (calls w) ++ pass_over event l
                  ++ pass_over tombstone (survivors event l w)
        else _event_callbacks (snd (_add_event event w))
             = Open (survivors event l w)
             /\ deliveries (calls (snd (_add_event event w)))
                = deliveries (calls w) ++ pass_over event l)
    /\ fst (surviving_of event l (at_pass event w))
       = Ok (survivors event l w)
    /\ (forall cb, always_keeps host cb ->
        times_registered (Direct cb) (survivors event l w)
        = times_registered (Direct cb) l)).
  { intros event NT.
    destruct (add_event_pass_outcome w l event W H) as (s & S & _ & _ & E & D).
    split; [apply no_tombstone_pass_over; exact NT|].
    split.
    - rewrite (survivors_pinned w l event s S). simpl andb.
      destruct (existsb snd s); simpl negb; cbv iota.
      + rewrite app_nil_r in D. auto.
      + auto.
    - split; [rewrite (survivors_pinned w l event s S); exact S|].
      intros cb K. apply (survivors_keep w l event cb K s S). }
  destruct o as [cb i|cb|c|m il|x]; unfold passed_by; simpl pushed_by;
    cbv iota.
  - split; [constructor|]. split.
    + simpl. destruct (on_event_open w l cb i H) as (w' & E' & E & C).
      unfold bind. rewrite E'. simpl. rewrite E, C, app_nil_r. auto.
    + split; [discriminate|]. intros c _ N. congruence.
  - split; [constructor|]. split.
    + simpl may_end. simpl left_by. simpl perform.
      destruct (unregister_open_wb w l cb W H) as (w' & -> & E & C).
      simpl snd. rewrite E, C.
      destruct (existsb snd (filter (fun '(cb0, _) => negb (is_ cb cb0)) l));
        simpl; rewrite ?app_nil_r; auto.
      rewrite deliveries_app, deliveries_calls_of. auto.
    + split; [discriminate|]. intros c _ N. congruence.
  - split; [constructor|]. split.
    + simpl.
      destruct (on_interest_end_open_wb w l c W H) as (w' & -> & E & C).
      simpl snd. rewrite E, C, deliveries_app.
      destruct (existsb snd l); simpl; rewrite !app_nil_r; auto.
    + split; [discriminate|]. intros c0 _ N. congruence.
  - destruct (P {| message := Some m; exception := None; is_last := il |}
                eq_refl) as (A & B & S & C).
    split; [exact A|]. split; [exact B|].
    split; [intros ev N; inversion N; subst ev; exact S|].
    intros cb K _. apply C, K.
  - destruct (P {| message := None; exception := Some x; is_last := true |}
                eq_refl) as (A & B & S & C).
    split; [exact A|]. split; [exact B|].
    split; [intros ev N; inversion N; subst ev; exact S|].
    intros cb K _. apply C, K.
Qed.

(** C1 (as amended): with callables that return and keep out of the point,
    at every call [o] of every sequence of calls on a new point: as long as
    the point is open nobody has been called with the tombstone; the call
    ends the point exactly when it is a handle or a push and none of the
    registrations it leaves counts as interest, and then each registration it
    leaves (for a handle, the list without its callable; for a push, the
    registrations whose callbacks answered the pushed event with a true
    value) is called with the tombstone once, in order, after the pass of the
    pushed event, and nothing is delivered to anyone by any later call;
    otherwise the point stays open with exactly those registrations.  A
    callable that answers every event with a true value is in the list a push
    leaves as often as it was before, final event or not. *)
Theorem tombstone_once_and_last (e0 : Env) ops1 o ops2 :
  well_behaved host ->
  _event_callbacks (snd (run ops1 (fresh e0))) <> Dispatching
  /\ (_event_callbacks (snd (run ops1 (fresh e0))) = Ended ->
      _event_callbacks (snd (run (ops1 ++ o :: ops2) (fresh e0))) = Ended
      /\ deliveries (calls (snd (run (ops1 ++ o :: ops2) (fresh e0))))
         = deliveries (calls (snd (run ops1 (fresh e0)))))
  /\ (forall l,
      _event_callbacks (snd (run ops1 (fresh e0))) = Open l ->
      no_tombstone (deliveries (calls (snd (run ops1 (fresh e0)))))
      /\ no_tombstone (passed_by o l)
      /\ (if may_end o
             && negb (existsb snd (left_by o l (snd (run ops1 (fresh e0)))))
          then _event_callbacks (snd (run (ops1 ++ [o]) (fresh e0))) = Ended
               /\ deliveries (calls (snd (run (ops1 ++ [o]) (fresh e0))))
                  = deliveries (calls (snd (run ops1 (fresh e0))))
                    ++ passed_by o l
                    ++ pass_over tombstone
                         (left_by o l (snd (run ops1 (fresh e0))))
               /\ deliveries
                    (calls (snd (run (ops1 ++ o :: ops2) (fresh e0))))
                  = deliveries (calls (snd (run (ops1 ++ [o]) (fresh e0))))
          else _event_callbacks (snd (run (ops1 ++ [o]) (fresh e0)))
               = Open (left_by o l (snd (run ops1 (fresh e0))))
               /\ deliveries (calls (snd (run (ops1 ++ [o]) (fresh e0))))
                  = deliveries (calls (snd (run ops1 (fresh e0))))
                    ++ passed_by o l)
      /\ (forall event, pushed_by o = Some event ->
          fst (surviving_of event l
                 (at_pass event (snd (run ops1 (fresh e0)))))
          = Ok (left_by o l (snd (run ops1 (fresh e0)))))
      /\ (forall cb, always_keeps host cb -> pushed_by o <> None ->
          times_registered (Direct cb)
            (left_by o l (snd (run ops1 (fresh e0))))
          = times_registered (Direct cb) l)).
Proof.
  intros W.
  set (w0 := snd (run ops1 (fresh e0))).
  assert (R1 : snd (run (ops1 ++ [o]) (fresh e0)) = snd (perform o w0)).
  { rewrite run_app. fold w0. rewrite run_cons. reflexivity. }
  assert (R2 : snd (run (ops1 ++ o :: ops2) (fresh e0))
               = snd (run ops2 (snd (perform o w0)))).
  { rewrite run_app. fold w0. rewrite run_cons. reflexivity. }
  rewrite R1, R2.
  split; [apply run_not_dispatching; [exact W | discriminate]|].
  split.
  - intros H. destruct (perform_ended_wb w0 o W H) as (E & D & _).
    destruct (run_ended_wb ops2 _ W E) as (E' & D'). split; congruence.
  - intros l H.
    pose proof (run_open_wb ops1 W (fresh e0) [] eq_refl
                  (Forall_nil _)) as N. fold w0 in N. rewrite H in N.
    destruct (perform_open_pinned w0 l o W H) as (A & B & S & C).
    split; [exact N|]. split; [exact A|]. split; [|exact (conj S C)].
    destruct (may_end o && negb (existsb snd (left_by o l w0))).
    + destruct B as (E & D). split; [exact E|]. split; [exact D|].
      apply (run_ended_wb ops2 _ W E).
    + exact B.
Qed.

(** ** The binder on its edges *)

(** X10: an exception of the coroutine that is neither an [Exception] nor a
    [CancelledError] comes out of [wrapped] as it is: nothing is pushed and
    nothing is logged.  The same holds for such an exception raised by
    [to_message()], after the one info record. *)
Theorem wrapped_lets_base_exceptions_pass (w : World Env) e :
  is_Exception e = false ->
  is_CancelledError e = false ->
  wrapped (Throws e) w = (Raise e, w)
  /\ wrapped (Throws (RenderableError (RenderFails e))) w
     = (Raise e,
        {| _event_callbacks := _event_callbacks w;
           log := log w ++ [(INFO, RenderableRaised
                                     (RenderableError (RenderFails e)))];
           tasks := tasks w; calls := calls w; env := env w |}).
Proof.
  intros HE HC. split.
  - destruct e; simpl in *; try discriminate; reflexivity.
  - unfold wrapped, bind, try_except_Exception, emit, to_message, raise.
    simpl. rewrite HE. reflexivity.
Qed.

(** X11: when the point has already ended, what [wrapped] pushes for a
    failed coroutine reaches no observer: the point drops it with a warning,
    and [wrapped] returns (after its error record, if the exception was not
    a renderable one). *)
Theorem wrapped_after_the_end_reaches_nobody (w : World Env) :
  _event_callbacks w = Ended ->
  (forall r, fails_with_Exception r ->
     dropped_by_the_point (final_response (response_for r)) [] w
       (wrapped (Throws (RenderableError r)) w))
  /\ (forall e, is_Exception e = true -> is_RenderableError e = false ->
     dropped_by_the_point
       (final_response (Message_of_code INTERNAL_SERVER_ERROR))
       [(ERROR, ExceptionWhileRendering e)] w
       (wrapped (Throws e) w)).
Proof.
  intros H. split.
  - intros r Hr. destruct (wrapped_renderable_eq w r Hr) as (records & ->).
    unfold add_response. fold (final_response (response_for r)).
    match goal with |- dropped_by_the_point ?ev _ _ (_add_event _ ?w1) =>
      destruct (add_event_ended (host := host) w1 ev H)
        as (A & B & C & D & L & _) end.
    unfold dropped_by_the_point. rewrite A, B, C, D, L. simpl.
    repeat split; auto. eexists. reflexivity.
  - intros e HE HR. rewrite (wrapped_exception_eq w e HE HR).
    unfold add_response, bind.
    fold (final_response (Message_of_code INTERNAL_SERVER_ERROR)).
    destruct (add_event_ended (host := host) w
                (final_response (Message_of_code INTERNAL_SERVER_ERROR)) H)
      as (A & B & C & D & L & _).
    destruct (_add_event _ w) as [[[]|x] w1]; simpl in A; [|discriminate].
    simpl in *. unfold dropped_by_the_point. simpl.
    rewrite B, C, D, L, H. repeat split; auto.
    exists (log w). rewrite <- app_assoc. reflexivity.
Qed.

(** X12: [wrapped] pushes before it logs.  When the coroutine raised an
    [Exception] that is not renderable and a callback raises in the pass of
    the push, that exception comes out of [wrapped], the point is left in the
    middle of the pass, and the error record for the coroutine's exception is
    never written. *)
Theorem wrapped_loses_its_error_record (w : World Env) l e x w1 :
  is_Exception e = true ->
  is_RenderableError e = false ->
  _event_callbacks w = Open l ->
  surviving_of (final_response (Message_of_code INTERNAL_SERVER_ERROR)) l
    (at_pass (final_response (Message_of_code INTERNAL_SERVER_ERROR)) w)
  = (Raise x, w1) ->
  wrapped (Throws e) w = (Raise x, w1).
Proof.
  intros HE HR H P. rewrite (wrapped_exception_eq w e HE HR).
  unfold bind, add_response.
  fold (final_response (Message_of_code INTERNAL_SERVER_ERROR)).
  rewrite (add_event_open_eq w l _ H), P. reflexivity.
Qed.

(** ** Final events and the callbacks that wait *)

(** X13: a push with [is_last = true] on an open point calls every callback
    whose [on_interest_end] lambda waits in the list, once for each lambda,
    and takes the lambdas out of the list, whether the point ends with that
    push or stays open. *)
Theorem final_push_serves_every_waiting_callback (w : World Env) l callback :
  well_behaved host ->
  _event_callbacks w = Open l ->
  (forall response,
     times_fired callback (calls (snd (add_response response true w)))
     = times_fired callback (calls w) + times_pending callback l
     /\ times_pending callback
          (registered (snd (add_response response true w))) = 0)
  /\ (forall exception,
     times_fired callback (calls (snd (add_exception exception w)))
     = times_fired callback (calls w) + times_pending callback l
     /\ times_pending callback
          (registered (snd (add_exception exception w))) = 0).
Proof.
  intros W H.
  assert (P : forall event, is_last event = true ->
    times_fired callback (calls (snd (_add_event event w)))
    = times_fired callback (calls w) + times_pending callback l
    /\ times_pending callback (registered (snd (_add_event event w))) = 0).
  { intros event L.
    destruct (add_event_counts w l event callback W H) as (s & E & Ps & F & _).
    rewrite L in Ps, F. unfold registered. rewrite E, F, Ps.
    destruct (existsb snd s); split; auto; lia. }
  split; intros; apply P; reflexivity.
Qed.

End FurtherProperties.

(** ** The further statements at work *)

Lemma rude_respects_end : respects_end rude.
Proof.
  split.
  - intros f e w H. simpl. unfold rude_event.
    assert (P : _event_callbacks (snd (polite_event f e w)) = Ended
                /\ deliveries (calls (snd (polite_event f e w)))
                   = deliveries (calls w)).
    { unfold polite_event. destruct f as [|[|[|f]]]; simpl; auto. }
    assert (A : forall event,
      _event_callbacks (snd (_add_event (host := polite) event w)) = Ended
      /\ deliveries (calls (snd (_add_event (host := polite) event w)))
         = deliveries (calls w)
      /\ exists w', _add_event (host := polite) event w = (Ok tt, w')).
    { intros event.
      destruct (add_event_ended (host := polite) w event H)
        as (R & E & D & _).
      rewrite E, D. repeat split; auto.
      destruct (_add_event event w) as [[[]|x] w']; simpl in R;
        [eauto | discriminate]. }
    destruct f as [|[|[|[|[|[|[|[|[|[|[|[|[|[|[|f]]]]]]]]]]]]]]];
      try exact P.
    + unfold bind, add_response.
      destruct (A {| message := Some a_response; exception := None;
                     is_last := false |}) as (E & D & w' & Q).
      rewrite Q in *. simpl in *. auto.
    + unfold bind, try_except_Exception, add_response.
      destruct (A {| message := Some a_response; exception := None;
                     is_last := false |}) as (E & D & w' & Q).
      rewrite Q in *. simpl in *. auto.
    + unfold bind, call_handle.
      rewrite (unregister_ended (host := polite)) by exact H.
      simpl. auto.
    + unfold bind, try_except_Exception, call_handle.
      rewrite (unregister_ended (host := polite)) by exact H.
      simpl. auto.
    + unfold bind.
      rewrite on_event_ended by exact H.
      simpl. auto.
  - intros f w H. simpl. auto.
Qed.

Lemma polite_0_always_keeps : always_keeps polite 0.
Proof. intros e w. reflexivity. Qed.

Lemma delivery_follows_registration_witness :
  well_behaved polite
  /\ pass_outcome (host := polite)
       {| message := Some a_response; exception := None; is_last := false |}
       (map entry [(0, true); (1, true); (2, false)])
       (snd (run (host := polite)
               (map registration [(0, true); (1, true); (2, false)])
               (fresh tt)))
       (add_response (host := polite) a_response false
          (snd (run (host := polite)
                  (map registration [(0, true); (1, true); (2, false)])
                  (fresh tt)))).
Proof.
  split; [exact polite_well_behaved|].
  exact (proj1 (proj2 (delivery_follows_registration (host := polite) tt
                         [(0, true); (1, true); (2, false)]
                         polite_well_behaved)) a_response false).
Defined.

Lemma push_without_interest_ends_the_point_witness :
  well_behaved polite
  /\ _event_callbacks (open_with [(Direct 0, false); (Direct 1, false)])
     = Open [(Direct 0, false); (Direct 1, false)]
  /\ existsb snd [(Direct 0, false); (Direct 1, false)] = false
  /\ ends_at_once (host := polite)
       {| message := Some a_response; exception := None; is_last := false |}
       [(Direct 0, false); (Direct 1, false)]
       (open_with [(Direct 0, false); (Direct 1, false)])
       (add_response (host := polite) a_response false
          (open_with [(Direct 0, false); (Direct 1, false)])).
Proof.
  split; [exact polite_well_behaved|]. split; [reflexivity|].
  split; [reflexivity|].
  exact (proj1 (proj1 (push_without_interest_ends_the_point (host := polite)
                         (open_with [(Direct 0, false); (Direct 1, false)])
                         [(Direct 0, false); (Direct 1, false)]
                         polite_well_behaved eq_refl eq_refl)
                  a_response false)).
Defined.


Lemma only_late_registration_raises_witness :
  well_behaved polite
  /\ fst (perform (host := polite) (Register 5 true)
            (snd (run (host := polite)
                    [Register 0 true; Unregister 0] (fresh tt))))
     = Raise AttributeError.
Proof.
  split; [exact polite_well_behaved|].
  exact (proj2 (only_late_registration_raises (host := polite) tt
                  [Register 0 true; Unregister 0] (Register 5 true) []
                  polite_well_behaved)).
Defined.

Lemma interest_lasts_until_the_end_witness :
  well_behaved polite
  /\ _event_callbacks (open_with [(Direct 2, true)]) <> Dispatching
  /\ existsb snd (registered (open_with [(Direct 2, true)])) = true
  /\ (_event_callbacks
        (snd (run (host := polite)
                [Register 0 false; Push a_response true]
                (open_with [(Direct 2, true)]))) = Ended
      \/ (_event_callbacks
            (snd (run (host := polite)
                    [Register 0 false; Push a_response true]
                    (open_with [(Direct 2, true)]))) <> Dispatching
          /\ existsb snd
               (registered
                  (snd (run (host := polite)
                          [Register 0 false; Push a_response true]
                          (open_with [(Direct 2, true)])))) = true)).
Proof.
  assert (N : _event_callbacks (open_with [(Direct 2, true)]) <> Dispatching)
    by discriminate.
  split; [exact polite_well_behaved|]. split; [exact N|].
  split; [reflexivity|].
  exact (interest_lasts_until_the_end (host := polite)
           (open_with [(Direct 2, true)])
           [Register 0 false; Push a_response true]
           polite_well_behaved N eq_refl).
Defined.

Lemma handle_twice_is_handle_once_witness :
  well_behaved polite
  /\ _event_callbacks (open_with [(Direct 0, true); (Direct 5, true)])
     <> Dispatching
  /\ call_handle (host := polite) (partial_unregister 0)
       (snd (call_handle (host := polite) (partial_unregister 0)
               (open_with [(Direct 0, true); (Direct 5, true)])))
     = (Ok tt,
        snd (call_handle (host := polite) (partial_unregister 0)
               (open_with [(Direct 0, true); (Direct 5, true)]))).
Proof.
  assert (N : _event_callbacks
                (open_with [(Direct 0, true); (Direct 5, true)])
              <> Dispatching) by discriminate.
  split; [exact polite_well_behaved|]. split; [exact N|].
  exact (handle_twice_is_handle_once (host := polite)
           (open_with [(Direct 0, true); (Direct 5, true)])
           (partial_unregister 0) polite_well_behaved N).
Defined.

Lemma unregistered_is_never_called_again_witness :
  well_behaved polite
  /\ _event_callbacks
       (open_with [(Direct 0, true); (Direct 5, true); (Direct 0, false)])
     <> Dispatching
  /\ leaves_alone (Direct 0) [Push a_response false; Unregister 5]
  /\ received (Direct 0)
       (calls
          (snd (run (host := polite) [Push a_response false; Unregister 5]
                  (snd (call_handle (host := polite) (partial_unregister 0)
                          (open_with [(Direct 0, true); (Direct 5, true);
                                      (Direct 0, false)]))))))
     = received (Direct 0)
         (calls (open_with [(Direct 0, true); (Direct 5, true);
                            (Direct 0, false)])).
Proof.
  assert (N : _event_callbacks
                (open_with [(Direct 0, true); (Direct 5, true);
                            (Direct 0, false)])
              <> Dispatching) by discriminate.
  assert (L : leaves_alone (Direct 0) [Push a_response false; Unregister 5])
    by (repeat constructor).
  split; [exact polite_well_behaved|]. split; [exact N|]. split; [exact L|].
  exact (unregistered_is_never_called_again (host := polite)
           (open_with [(Direct 0, true); (Direct 5, true); (Direct 0, false)])
           0 [Push a_response false; Unregister 5]
           polite_well_behaved N L).
Defined.

Lemma staying_observer_is_followed_to_the_end_witness :
  let ops1 := [Register 2 true] in
  let opsA := [Push a_response false] in
  let o := Push a_response true in
  let opsB := [Push a_response false] in
  let w0 := snd (run (host := polite) ops1 (fresh tt)) in
  let w1 := snd (perform (host := polite) (Register 0 false) w0) in
  well_behaved polite
  /\ always_keeps polite 0
  /\ leaves_alone (Direct 0) (ops1 ++ opsA ++ o :: opsB)
  /\ never_unregisters 0 (opsA ++ o :: opsB)
  /\ is_ended w0 = false
  /\ is_ended (snd (run (host := polite) opsA w1)) = false
  /\ _event_callbacks (snd (run (host := polite) (opsA ++ [o]) w1)) = Ended
  /\ followed_while_open 0 (pushes (calls w0))
       (snd (run (host := polite) opsA w1))
  /\ (followed_while_open 0 (pushes (calls w0))
        (snd (run (host := polite) (opsA ++ [o]) w1))
      \/ (followed_at_the_end 0 (pushes (calls w0))
            (snd (run (host := polite) (opsA ++ [o]) w1))
          /\ received (Direct 0)
               (calls (snd (run (host := polite) (opsA ++ o :: opsB) w1)))
             = received (Direct 0)
                 (calls (snd (run (host := polite) (opsA ++ [o]) w1))))).
Proof.
  cbv zeta.
  assert (L : leaves_alone (Direct 0)
                ([Register 2 true]
                 ++ [Push a_response false]
                 ++ Push a_response true :: [Push a_response false]))
    by (repeat constructor).
  assert (U : never_unregisters 0
                ([Push a_response false]
                 ++ Push a_response true :: [Push a_response false]))
    by (repeat constructor).
  split; [exact polite_well_behaved|]. split; [exact polite_0_always_keeps|].
  split; [exact L|]. split; [exact U|]. split; [reflexivity|].
  split; [reflexivity|].
  split; [reflexivity|].
  exact (staying_observer_is_followed_to_the_end (host := polite) tt
           [Register 2 true] 0 false [Push a_response false]
           (Push a_response true) [Push a_response false]
           polite_well_behaved polite_0_always_keeps L U eq_refl eq_refl).
Defined.

Lemma tombstone_pass_runs_on_the_ended_point_witness :
  let l := [(Direct 5, true); (Direct 0, false); (Direct 3, false);
            (Direct 1, false)] in
  let wf := snd (call_each (host := rude) tombstone [(Direct 0, false)]
                   (with_callbacks Ended a_point_with_a_passive_raiser)) in
  let wr := snd (call_observer (host := rude) (Direct 3) tombstone wf) in
  respects_end rude
  /\ _event_callbacks a_point_with_a_passive_raiser = Open l
  /\ filter (fun '(o, _) => negb (is_ 5 o)) l
     = [(Direct 0, false)] ++ (Direct 3, false) :: [(Direct 1, false)]
  /\ existsb snd
       ([(Direct 0, false)] ++ (Direct 3, false) :: [(Direct 1, false)])
     = false
  /\ call_each (host := rude) tombstone [(Direct 0, false)]
       (with_callbacks Ended a_point_with_a_passive_raiser) = (Ok tt, wf)
  /\ call_observer (host := rude) (Direct 3) tombstone wf
     = (Raise (OtherException 0), wr)
  /\ call_handle (host := rude) (partial_unregister 5)
       a_point_with_a_passive_raiser
     = (Raise (OtherException 0), wr)
  /\ _event_callbacks wr = Ended
  /\ deliveries (calls wr)
     = deliveries (calls a_point_with_a_passive_raiser)
       ++ pass_over tombstone ([(Direct 0, false)] ++ [(Direct 3, false)])
  /\ forall callback is_interest,
       on_event callback is_interest wr = (Raise AttributeError, wr).
Proof.
  cbv zeta.
  split; [exact rude_respects_end|]. split; [reflexivity|].
  split; [reflexivity|]. split; [reflexivity|]. split; [reflexivity|].
  split; [reflexivity|].
  exact (tombstone_pass_runs_on_the_ended_point (host := rude)
           a_point_with_a_passive_raiser
           [(Direct 5, true); (Direct 0, false); (Direct 3, false);
            (Direct 1, false)]
           5 [(Direct 0, false)] (Direct 3, false) [(Direct 1, false)]
           (OtherException 0) _ _
           rude_respects_end eq_refl eq_refl eq_refl eq_refl eq_refl).
Defined.

Lemma tombstone_once_and_last_witness :
  let ops1 := [Register 2 true; Register 0 false; Register 1 false] in
  let o := Push a_response true in
  let ops2 := [Push a_response false; Unregister 0] in
  let l := [(Direct 2, true); (Direct 0, false); (Direct 1, false)] in
  let w0 := snd (run (host := polite) ops1 (fresh tt)) in
  well_behaved polite
  /\ _event_callbacks w0 = Open l
  /\ left_by (host := polite) o l w0 = [(Direct 0, false)]
  /\ _event_callbacks (snd (run (host := polite) (ops1 ++ [o]) (fresh tt)))
     = Ended
  /\ deliveries
       (calls (snd (run (host := polite) (ops1 ++ [o]) (fresh tt))))
     = deliveries (calls w0) ++ passed_by o l
       ++ pass_over tombstone (left_by (host := polite) o l w0)
  /\ deliveries
       (calls (snd (run (host := polite) (ops1 ++ o :: ops2) (fresh tt))))
     = deliveries
         (calls (snd (run (host := polite) (ops1 ++ [o]) (fresh tt)))).
Proof.
  cbv zeta.
  split; [exact polite_well_behaved|]. split; [reflexivity|].
  split; [reflexivity|].
  exact (proj1 (proj2 (proj2
           (proj2 (proj2
              (tombstone_once_and_last (host := polite) tt
                 [Register 2 true; Register 0 false; Register 1 false]
                 (Push a_response true)
                 [Push a_response false; Unregister 0]
                 polite_well_behaved))
              [(Direct 2, true); (Direct 0, false); (Direct 1, false)]
              eq_refl)))).
Defined.

Lemma wrapped_lets_base_exceptions_pass_witness :
  is_Exception (OtherBaseException 1) = false
  /\ is_CancelledError (OtherBaseException 1) = false
  /\ wrapped (host := polite) (Throws (OtherBaseException 1))
       (open_with [(Direct 0, true)])
     = (Raise (OtherBaseException 1), open_with [(Direct 0, true)]).
Proof.
  split; [reflexivity|]. split; [reflexivity|].
  exact (proj1 (wrapped_lets_base_exceptions_pass (host := polite)
                  (open_with [(Direct 0, true)]) (OtherBaseException 1)
                  eq_refl eq_refl)).
Defined.

Lemma wrapped_after_the_end_reaches_nobody_witness :
  _event_callbacks an_ended_point = Ended
  /\ is_Exception ValueError = true
  /\ is_RenderableError ValueError = false
  /\ dropped_by_the_point (final_response (Message_of_code 160))
       [(ERROR, ExceptionWhileRendering ValueError)] an_ended_point
       (wrapped (host := polite) (Throws ValueError) an_ended_point).
Proof.
  split; [reflexivity|]. split; [reflexivity|]. split; [reflexivity|].
  exact (proj2 (wrapped_after_the_end_reaches_nobody (host := polite)
                  an_ended_point eq_refl) ValueError eq_refl eq_refl).
Defined.

Lemma wrapped_loses_its_error_record_witness :
  is_Exception ValueError = true
  /\ is_RenderableError ValueError = false
  /\ _event_callbacks a_point_with_a_raiser
     = Open [(Direct 0, true); (Direct 3, true); (Direct 5, true)]
  /\ wrapped (host := rude) (Throws ValueError) a_point_with_a_raiser
     = (Raise (OtherException 0),
        {| _event_callbacks := Dispatching; log := []; tasks := [];
           calls := [Pushed (final_response (Message_of_code 160));
                     Delivered (Direct 0)
                       (final_response (Message_of_code 160));
                     Delivered (Direct 3)
                       (final_response (Message_of_code 160))];
           env := tt |}).
Proof.
  split; [reflexivity|]. split; [reflexivity|]. split; [reflexivity|].
  exact (wrapped_loses_its_error_record (host := rude)
           a_point_with_a_raiser
           [(Direct 0, true); (Direct 3, true); (Direct 5, true)]
           ValueError (OtherException 0) _ eq_refl eq_refl eq_refl eq_refl).
Defined.

Lemma final_push_serves_every_waiting_callback_witness :
  well_behaved polite
  /\ _event_callbacks
       (open_with [(Direct 0, true); (Lambda (Plain 7), false)])
     = Open [(Direct 0, true); (Lambda (Plain 7), false)]
  /\ times_fired (Plain 7)
       (calls (snd (add_response (host := polite) a_response true
                      (open_with [(Direct 0, true);
                                  (Lambda (Plain 7), false)]))))
     = times_fired (Plain 7)
         (calls (open_with [(Direct 0, true); (Lambda (Plain 7), false)]))
       + times_pending (Plain 7)
           [(Direct 0, true); (Lambda (Plain 7), false)].
Proof.
  split; [exact polite_well_behaved|]. split; [reflexivity|].
  exact (proj1 (proj1 (final_push_serves_every_waiting_callback
                         (host := polite)
                         (open_with [(Direct 0, true);
                                     (Lambda (Plain 7), false)])
                         [(Direct 0, true); (Lambda (Plain 7), false)]
                         (Plain 7) polite_well_behaved eq_refl)
                  a_response)).
Defined.
